(** * reGRR [bin/diff.py]: the manifest parser and the comparison replayer

    A shallow embedding of [MatList.__init__] (the parser of [lists.txt]) and
    of [MatList.compare] (the replay of the parsed flow against two output
    directories), with the properties of the specification stated over it.

    Conventions of the embedding:
    - a Python [str] is a [string] whose characters are code points below 256;
    - a matrix element is a binary64 float ([PrimFloat.float]), as numpy holds
      the [CV_64F] matrices that OpenCV loads;
    - the file system, the standard output and the list of files handed to
      [load_mat] form the [world] that [compare] threads through its loop;
    - a Python exception is a value of [exn]; the replay returns [Ok] or
      [Raise], and keeps in both cases what was printed before. *)

From Stdlib Require Import ZArith Ascii String List Floats Lia.
From stdpp Require Import base tactics option list gmap strings.
Import ListNotations.

#[local] Set Warnings "-inexact-float".

Local Open Scope string_scope.
Local Open Scope Z_scope.
Local Open Scope list_scope.

(** ** Python strings *)

Module PyStr.

(** [str.isspace] on one character, for the code points below 256:
    tab, line feed, vertical tab, form feed, carriage return, the four
    separators 0x1c to 0x1f, space, NEL (0x85) and the no-break space. *)
Definition isspace (c : ascii) : bool :=
  let n := nat_of_ascii c in
  ((9 <=? n) && (n <=? 13) || (28 <=? n) && (n <=? 32)
   || (n =? 133) || (n =? 160))%nat.

Definition newline : ascii := ascii_of_nat 10.

(** [s.lstrip()] *)
Fixpoint lstrip (s : string) : string :=
  match s with
  | String c s' => if isspace c then lstrip s' else s
  | EmptyString => EmptyString
  end.

(** [s.rstrip()]: a character is kept when something is kept after it, or
    when it is not white space. *)
Fixpoint rstrip (s : string) : string :=
  match s with
  | EmptyString => EmptyString
  | String c s' =>
      match rstrip s' with
      | EmptyString => if isspace c then EmptyString else String c EmptyString
      | r => String c r
      end
  end.

(** [s.strip()] *)
Definition strip (s : string) : string := rstrip (lstrip s).

(** [len(s)] *)
Definition len (s : string) : Z := Z.of_nat (String.length s).

(** [s[0]], which raises [IndexError] on the empty string ([None] here). *)
Definition head (s : string) : option ascii :=
  match s with
  | String c _ => Some c
  | EmptyString => None
  end.

(** [s[1:]] *)
Definition from1 (s : string) : string :=
  match s with
  | String _ s' => s'
  | EmptyString => EmptyString
  end.

(** [s * n] for a natural number [n] *)
Fixpoint repeat (s : string) (n : nat) : string :=
  match n with
  | O => EmptyString
  | S n' => s +:+ repeat s n'
  end.

(** [s.startswith(c)] and [s.endswith(c)] for a one-character [c] *)
Definition startswith (s : string) (c : ascii) : bool :=
  match s with
  | String d _ => bool_decide (d = c)
  | EmptyString => false
  end.

Fixpoint endswith (s : string) (c : ascii) : bool :=
  match s with
  | EmptyString => false
  | String d EmptyString => bool_decide (d = c)
  | String _ s' => endswith s' c
  end.

(** The lines of a text as a text-mode file object yields them: each line
    keeps its terminating line feed, and the last one may lack it. *)
Fixpoint readlines (s : string) : list string :=
  match s with
  | EmptyString => []
  | String c s' =>
      if bool_decide (c = newline) then String c EmptyString :: readlines s'
      else match readlines s' with
           | [] => [String c EmptyString]
           | l :: ls => String c l :: ls
           end
  end.

End PyStr.

(** ** The manifest: [MatList.__init__] *)

(** The class constants. *)
Definition ENTER_SCOPE : Z := 0.
Definition EXIT_SCOPE : Z := 1.
Definition SAVE_MAT : Z := 2.

(** One element of [self.flow]: the dict [{'type': t}] or
    [{'type': t, 'name': n}]. *)
Record action := Action { atype : Z; aname : option string }.

(** The two attributes the constructor sets. *)
Record MatList := { ext : string; flow : list action }.

(** The body of [for line in file] (lines 41 to 55), on the flow built so
    far. *)
Definition init_line (flow : list action) (line : string) : list action :=
  let line := PyStr.strip line in
  if 0 <? PyStr.len line then
    match PyStr.head line with
    | Some c =>
        if bool_decide (c = "-"%char) then
          flow ++ [Action EXIT_SCOPE None]
        else if bool_decide (c = "+"%char) then
          let scope_name := PyStr.strip (PyStr.from1 line) in
          flow ++ [Action ENTER_SCOPE (Some scope_name)]
        else
          let mat_name := PyStr.strip line in
          flow ++ [Action SAVE_MAT (Some mat_name)]
    | None => flow
    end
  else flow.

(** [MatList(lists_path)], on the text that [open(lists_path, 'r')] gives:
    [readline] takes the first line (the empty string at the end of the
    file), and the loop runs over the lines left. *)
Definition MatList_init (text : string) : MatList :=
  let file := PyStr.readlines text in
  let first := hd EmptyString file in
  let rest := tl file in
  {| ext := PyStr.strip first;
     flow := fold_left init_line rest [] |}.

(** ** Exceptions, the world, and the monad of [compare] *)

(** The exceptions the modelled code can raise. All are subclasses of
    Python's [Exception], so [except Exception] catches each of them. *)
Inductive exn :=
  | IndexError_pop_from_empty_list      (* [scopes.pop()] on [[]] *)
  | KeyError_name                       (* [action['name']] without the key *)
  | Exception_unknown_action_type       (* line 145 *)
  | AttributeError_None_flatten         (* [None.flatten()] *)
  | ValueError_broadcast (n m : nat)    (* operands of shapes (n,) and (m,) *)
  | ValueError_zero_size_reduction      (* [np.min] of an empty array *)
  | FileExistsError (path : string)     (* [os.makedirs] over a regular file *)
  | NotADirectoryError (path : string)  (* [os.makedirs] under a regular file *)
  | cv2_error_filename                  (* a file name that is not a [str] *)
  | cv2_error_read.                     (* a file that OpenCV cannot parse *)

(** What a file holds for [load_mat]: a matrix of 64-bit floats ([CV_64F])
    as its first top-level node, given by its rows; a storage that OpenCV
    reads and whose first node is no matrix; or a file that OpenCV cannot
    parse. Matrices of the other element types of OpenCV (integers, 32-bit
    floats), which numpy subtracts in their own type, are outside this
    model. *)
Inductive file :=
  | MatFile (rows : list (list float))
  | OtherFile
  | BrokenFile.

(** The colours of the [colors] module that [compare] uses. *)
Inductive colour := white | green | yellow | red.

(** The statistics of numpy printed for an entry that differs. Their values
    are kept as the call that computes them. *)
Inductive stat := np_min | np_max | np_average | np_median | np_std.

(** A piece of a printed line: literal text, a float formatted by an
    f-string, a statistic of an array, or the text of an exception. *)
Inductive piece :=
  | Str (s : string)
  | Num (x : float)
  | StatOf (k : stat) (a : list float)
  | ExnText (e : exn).

(** One call of [print]: the colour wrapped around the text, if any. *)
Record line := Line { line_colour : option colour; line_text : list piece }.

Record world := World {
  files : gmap string file;     (* the regular files, by path *)
  dirs : gset string;           (* the directories [os.makedirs] made or found *)
  stdout : list line;           (* what was printed, oldest first *)
  loaded : list string          (* the paths handed to [load_mat], in order *)
}.

Inductive result (A : Type) :=
  | Ok (a : A)
  | Raise (e : exn).
Arguments Ok {A} a.
Arguments Raise {A} e.

Definition io (A : Type) : Type := world -> result A * world.

Global Instance io_ret : MRet io := fun A a w => (Ok a, w).

Global Instance io_bind : MBind io := fun A B f m w =>
  match m w with
  | (Ok a, w') => f a w'
  | (Raise e, w') => (Raise e, w')
  end.

Definition raise {A : Type} (e : exn) : io A := fun w => (Raise e, w).

(** [try: body except Exception as e: handler] *)
Definition try_except {A : Type} (body : io A) (handler : exn -> io A) : io A :=
  fun w =>
    match body w with
    | (Ok a, w') => (Ok a, w')
    | (Raise e, w') => handler e w'
    end.

(** A result computed without the world. *)
Definition lift {A : Type} (r : result A) : io A := fun w => (r, w).

(** The world after one more line was printed, and after more files were
    handed to [load_mat]. *)
Definition printed (w : world) (l : line) : world :=
  World (files w) (dirs w) (stdout w ++ [l]) (loaded w).

Definition loading (w : world) (paths : list string) : world :=
  World (files w) (dirs w) (stdout w) (loaded w ++ paths).

(** [print(l)] *)
Definition print (l : line) : io unit := fun w => (Ok (), printed w l).

(** ** The library calls of [compare] *)

Module os.

Definition sep : ascii := "/"%char.

(** One round of the loop of [posixpath.join]. *)
Definition join_step (path b : string) : string :=
  if PyStr.startswith b sep then b
  else if bool_decide (path = EmptyString) || PyStr.endswith path sep
  then path +:+ b
  else path +:+ String sep b.

(** [os.path.join(a, *p)] *)
Definition path_join (a : string) (p : list string) : string :=
  fold_left join_step p a.

(** [os.path.join] applied to an unpacked list of arguments; [compare]
    always passes at least one. *)
Definition path_join_args (args : list string) : string :=
  match args with
  | a :: p => path_join a p
  | [] => EmptyString
  end.

(** [os.path.isfile(path)] *)
Definition path_isfile (path : string) : io bool := fun w =>
  (Ok (bool_decide (path ∈ dom (files w))), w).

(** The proper ancestors of a path: what comes before each separator that
    is not its first character. *)
Fixpoint ancestors_from (before path : string) : list string :=
  match path with
  | EmptyString => []
  | String c path' =>
      (if bool_decide (c = sep) && negb (bool_decide (before = EmptyString))
       then [before] else [])
      ++ ancestors_from (before +:+ String c EmptyString) path'
  end.

Definition ancestors (path : string) : list string :=
  ancestors_from EmptyString path.

(** [os.makedirs(path, exist_ok=True)]: the directory and the intermediate
    ones exist afterwards; a regular file of that name, or in the place of
    an intermediate directory, is an error. *)
Definition makedirs (path : string) : io unit := fun w =>
  if bool_decide (path ∈ dom (files w)) then (Raise (FileExistsError path), w)
  else match filter (fun p => p ∈ dom (files w)) (ancestors path) with
       | p :: _ => (Raise (NotADirectoryError p), w)
       | [] =>
           (Ok (),
            World (files w) ({[ path ]} ∪ list_to_set (ancestors path) ∪ dirs w)
                  (stdout w) (loaded w))
       end.

End os.

Module np.

(** [a.flatten()] of a two-dimensional array, row by row. *)
Definition flatten (rows : list (list float)) : list float := concat rows.

(** [a - b] on one-dimensional arrays: elementwise when the lengths agree,
    a one-element operand is broadcast, anything else is a [ValueError]. *)
Definition subtract (a b : list float) : result (list float) :=
  if (length a =? length b)%nat then Ok (zip_with PrimFloat.sub a b)
  else match a, b with
       | _, [y] => Ok (map (fun x => PrimFloat.sub x y) a)
       | [x], _ => Ok (map (fun y => PrimFloat.sub x y) b)
       | _, _ => Raise (ValueError_broadcast (length a) (length b))
       end.

(** [np.abs(a)] *)
Definition abs (a : list float) : list float := map PrimFloat.abs a.

(** The loop [res = start; for x in a: res += x]. *)
Definition sum_from (start : float) (a : list float) : float :=
  fold_left PrimFloat.add a start.

(** The unrolled loop of numpy's pairwise summation: eight accumulators,
    each adding every eighth element, for [blocks] blocks of eight. *)
Fixpoint add_blocks (blocks : nat) (r a : list float) : list float * list float :=
  match blocks with
  | O => (r, a)
  | S k => add_blocks k (zip_with PrimFloat.add r (take 8 a)) (drop 8 a)
  end.

(** The sum of 8 to 128 elements: the accumulators start as the first eight
    elements, take the full blocks of eight that follow, are added as a
    tree, and the elements left (fewer than eight) are added one by one. *)
Definition pairwise_block (a : list float) : float :=
  let '(r, rest) := add_blocks (Nat.div (length a) 8 - 1) (take 8 a) (drop 8 a) in
  match r with
  | [r0; r1; r2; r3; r4; r5; r6; r7] =>
      sum_from (PrimFloat.add
                  (PrimFloat.add (PrimFloat.add r0 r1) (PrimFloat.add r2 r3))
                  (PrimFloat.add (PrimFloat.add r4 r5) (PrimFloat.add r6 r7)))
               rest
  | _ => sum_from 0%float a
  end.

(** numpy's [pairwise_sum] (the inner loop of [add.reduce] on floats):
    fewer than 8 elements are added from left to right, up to 128 in one
    block, and more are cut in two, the first part being half of them
    rounded down to a multiple of 8. The fuel bounds the depth of the
    recursion; the length of the array is always enough
    ([pairwise_sum_unfold]). Later versions of numpy start the loop over
    fewer than 8 elements from -0.0, which gives the same sum unless every
    element is -0.0. *)
Fixpoint pairwise_sum_rec (fuel : nat) (a : list float) : float :=
  let n := length a in
  if (n <? 8)%nat then sum_from 0%float a
  else if (n <=? 128)%nat then pairwise_block a
  else match fuel with
       | O => pairwise_block a
       | S fuel' =>
           let n2 := (Nat.div n 2 - Nat.modulo (Nat.div n 2) 8)%nat in
           PrimFloat.add (pairwise_sum_rec fuel' (take n2 a))
                         (pairwise_sum_rec fuel' (drop n2 a))
       end.

Definition pairwise_sum (a : list float) : float :=
  pairwise_sum_rec (length a) a.

(** [np.add.reduce(a)] on a one-dimensional array of floats: the identity
    of the sum, to which the pairwise sum of the array is added. *)
Definition add_reduce (a : list float) : float :=
  PrimFloat.add 0%float (pairwise_sum a).

(** [np.linalg.norm(a, ord=1)] of a one-dimensional array, which numpy
    computes as [add.reduce(abs(a))]. *)
Definition linalg_norm1 (a : list float) : float :=
  add_reduce (map PrimFloat.abs a).

(** [np.min(a)] and [np.max(a)] raise on an empty array; the other three
    statistics return (nan, with a warning) on it. *)
Definition reduce_nonempty (k : stat) (a : list float) : io piece :=
  match a with
  | [] => raise ValueError_zero_size_reduction
  | _ => mret (StatOf k a)
  end.

Definition reduce (k : stat) (a : list float) : io piece := mret (StatOf k a).

End np.

Module cv2.

(** The argument [filename] of [cv2.FileStorage]: Python passes any
    object, and only a [str] is accepted. *)
Inductive pyobj :=
  | PyStr (s : string)
  | PyTuple (items : list string).

(** [cv2.FileStorage(path, cv2.FILE_STORAGE_READ).getFirstTopLevelNode().mat()]:
    the matrix of the first node. [mat()] gives [None] when the node is no
    matrix and when the matrix has no element; a file that OpenCV cannot
    parse raises. *)
Definition read_first_mat (path : string) : io (option (list (list float))) :=
  fun w =>
    (match files w !! path with
     | Some (MatFile rows) =>
         match concat rows with
         | [] => Ok None
         | _ => Ok (Some rows)
         end
     | Some BrokenFile => Raise cv2_error_read
     | _ => Ok None
     end,
     loading w [path]).

(** [cv2.FileStorage(filename, cv2.FILE_STORAGE_WRITE)]: the storage opened
    on [filename], named here by its path. *)
Definition FileStorage_write (filename : pyobj) : io string :=
  match filename with
  | PyStr path => mret path
  | PyTuple _ => raise cv2_error_filename
  end.

(** [storage.write(name, a)] for a one-dimensional array: one node holding
    the array as a column. *)
Definition write (storage : string) (name : string) (a : list float) : io unit :=
  fun w =>
    (Ok (),
     World (<[ storage := MatFile (map (fun x => [x]) a) ]> (files w))
           (dirs w) (stdout w) (loaded w)).

End cv2.

(** [load_mat(path)] (lines 10 to 16) *)
Definition load_mat (path : string) : io (option (list (list float))) :=
  cv2.read_first_mat path.

(** [m.flatten()] on what [load_mat] returned. *)
Definition flatten (m : option (list (list float))) : io (list float) :=
  match m with
  | Some rows => mret (np.flatten rows)
  | None => raise AttributeError_None_flatten
  end.

(** [load_mat(path).flatten()] without the world: the array that a file
    gives, or the exception that the two calls raise. *)
Definition flat_array (f : option file) : result (list float) :=
  match f with
  | Some (MatFile rows) =>
      match np.flatten rows with
      | [] => Raise AttributeError_None_flatten
      | m => Ok m
      end
  | Some BrokenFile => Raise cv2_error_read
  | _ => Raise AttributeError_None_flatten
  end.

(** ** The replay: [MatList.compare] *)

(** The double quote of the two messages printed without a colour. *)
Definition dq : string := String (ascii_of_nat 34) EmptyString.

(** [action['name']] *)
Definition action_name (a : action) : io string :=
  match aname a with
  | Some n => mret n
  | None => raise KeyError_name
  end.

(** [scopes.pop()], of which [compare] drops the value. *)
Definition scopes_pop (scopes : list string) : io (list string) :=
  match scopes with
  | [] => raise IndexError_pop_from_empty_list
  | _ => mret (removelast scopes)
  end.

Section Compare.

Context (self : MatList) (tmp_dir1 tmp_dir2 : string).

(** The path of an entry under a root (lines 89 and 90). *)
Definition entry_path (tmp_dir : string) (scopes : list string)
    (mat_name : string) : string :=
  os.path_join tmp_dir (scopes ++ [mat_name +:+ ext self]).

(** The path printed by the handler (line 140). *)
Definition entry_relpath (scopes : list string) (mat_name : string) : string :=
  os.path_join_args (scopes ++ [mat_name +:+ ext self]).

(** Lines 130 to 135: the difference is saved. The trailing comma of line
    132 makes [diff_file] a tuple of one string. *)
Definition save_diff (scopes : list string) (mat_name : string)
    (diff : list float) : io unit :=
  let diff_dir := os.path_join tmp_dir1 ("diff" :: scopes) in
  _ ← os.makedirs diff_dir;
  let diff_file := cv2.PyTuple [os.path_join diff_dir [mat_name +:+ ext self]] in
  storage ← cv2.FileStorage_write diff_file;
  cv2.write storage "root" diff.

(** Lines 109 to 135: the line printed for the entry, and the difference
    saved unless the distance is below 0.001. *)
Definition report (scopes : list string) (mat_name : string)
    (diff : list float) (d : float) (min max avg median std : piece) : io unit :=
  let padding := PyStr.repeat "    " (length scopes) in
  let text := [Str (padding +:+ mat_name +:+ ": d="); Num d] in
  if PrimFloat.ltb d 0.001%float then
    print (Line (Some green) text)
  else
    let text := text ++ [Str ", min="; min; Str ", max="; max; Str ", avg="; avg;
                         Str ", median="; median; Str ", std="; std] in
    _ ← (if PrimFloat.ltb d 10%float then print (Line (Some yellow) text)
         else print (Line (Some red) text));
    save_diff scopes mat_name diff.

(** Lines 97 to 135: the body of the [try]. *)
Definition compare_entry (scopes : list string) (mat_name path1 path2 : string)
    : io unit :=
  a1 ← load_mat path1;
  m1 ← flatten a1;
  a2 ← load_mat path2;
  m2 ← flatten a2;
  delta ← lift (np.subtract m2 m1);
  let diff := np.abs delta in
  let d := np.linalg_norm1 diff in
  min ← np.reduce_nonempty np_min diff;
  max ← np.reduce_nonempty np_max diff;
  avg ← np.reduce np_average diff;
  median ← np.reduce np_median diff;
  std ← np.reduce np_std diff;
  report scopes mat_name diff d min max avg median std.

(** Line 140: the handler of the [try]. *)
Definition error_line (scopes : list string) (mat_name : string) (e : exn) : line :=
  Line None [Str ("Error when comparing " +:+ dq);
             Str (entry_relpath scopes mat_name);
             Str (dq +:+ ": " +:+ dq); ExnText e; Str (dq +:+ ".")].

(** Line 143 *)
Definition missing_line (path1 path2 : string) : line :=
  Line None [Str ("Cannot find file matrices: " +:+ dq); Str path1;
             Str (dq +:+ " or " +:+ dq); Str path2; Str dq].

(** Lines 84 to 143: the branch of [SAVE_MAT]. *)
Definition save_mat (scopes : list string) (mat_name : string) : io unit :=
  let path1 := entry_path tmp_dir1 scopes mat_name in
  let path2 := entry_path tmp_dir2 scopes mat_name in
  isfile1 ← os.path_isfile path1;
  isfile2 ← (if isfile1 then os.path_isfile path2 else mret false);
  if isfile1 && isfile2 then
    try_except (compare_entry scopes mat_name path1 path2)
               (fun e => print (error_line scopes mat_name e))
  else
    print (missing_line path1 path2).

(** Line 74 *)
Definition scope_line (scopes : list string) (scope_name : string) : line :=
  Line (Some white)
       [Str (PyStr.repeat "    " (length scopes) +:+ scope_name +:+ "/")].

(** Lines 69 to 145: the body of the loop, from the scopes before the
    action to the scopes after it. *)
Definition step (scopes : list string) (a : action) : io (list string) :=
  let t := atype a in
  if bool_decide (t = ENTER_SCOPE) then
    scope_name ← action_name a;
    _ ← print (scope_line scopes scope_name);
    mret (scopes ++ [scope_name])
  else if bool_decide (t = EXIT_SCOPE) then
    scopes_pop scopes
  else if bool_decide (t = SAVE_MAT) then
    mat_name ← action_name a;
    _ ← save_mat scopes mat_name;
    mret scopes
  else
    raise Exception_unknown_action_type.

(** The loop of line 66, from a given stack of scopes. *)
Fixpoint replay (actions : list action) (scopes : list string) : io (list string) :=
  match actions with
  | [] => mret scopes
  | a :: rest => scopes' ← step scopes a; replay rest scopes'
  end.

(** [self.compare(tmp_dir1, tmp_dir2)] *)
Definition compare : io unit :=
  _ ← replay (flow self) [];
  mret ().

End Compare.

(** ** The specification's vocabulary *)

(** The three classes of the specification, and the colour that [compare]
    prints each in. *)
Inductive classification := Identical | Minor | Major.

Definition colour_of (c : classification) : colour :=
  match c with
  | Identical => green
  | Minor => yellow
  | Major => red
  end.

(** The classification as the specification words it: below 0.001, from
    0.001 to below 10.0, and from 10.0 on. *)
Inductive classified (d : float) : classification -> Prop :=
  | classified_identical :
      PrimFloat.ltb d 0.001 = true -> classified d Identical
  | classified_minor :
      PrimFloat.leb 0.001 d = true -> PrimFloat.ltb d 10 = true ->
      classified d Minor
  | classified_major :
      PrimFloat.leb 10 d = true -> classified d Major.

(** A file that OpenCV reads and in which [mat()] finds no matrix: the
    first node is no matrix, or the matrix has no element. *)
Definition holds_no_matrix (f : file) : Prop :=
  match f with
  | MatFile rows => np.flatten rows = []
  | OtherFile => True
  | BrokenFile => False
  end.

(** An array of zeros. *)
Definition zeros (a : list float) : Prop := Forall (fun x => x = 0%float) a.

(** A float that is neither an infinity nor a nan. *)
Definition finite (x : float) : Prop := PrimFloat.is_finite x = true.

(** The actions of the specification's data model. *)
Inductive Action_spec :=
  | EnterScope (name : string)
  | ExitScope
  | SaveEntry (name : string).

(** The action of a trimmed line that is not blank, by its first
    character. *)
Definition spec_action_of_line (trimmed : string) : Action_spec :=
  match trimmed with
  | String c rest =>
      if bool_decide (c = "-"%char) then ExitScope
      else if bool_decide (c = "+"%char) then EnterScope (PyStr.strip rest)
      else SaveEntry trimmed
  | EmptyString => SaveEntry trimmed
  end.

(** The manifest of a text as the specification words it: the first line
    trimmed, then one action for each later line that is not blank once
    trimmed, in the order of the lines. *)
Definition spec_manifest (text : string) : string * list Action_spec :=
  let lines := PyStr.readlines text in
  (PyStr.strip (hd EmptyString lines),
   map spec_action_of_line
       (filter (fun l => l <> EmptyString) (map PyStr.strip (tl lines)))).

(** The dict that stands for an action of the specification. *)
Definition action_of_spec (a : Action_spec) : action :=
  match a with
  | EnterScope n => Action ENTER_SCOPE (Some n)
  | ExitScope => Action EXIT_SCOPE None
  | SaveEntry n => Action SAVE_MAT (Some n)
  end.

(** What the constructor guarantees of every action: one of the three
    types, with a name unless it exits a scope. *)
Definition well_formed (a : action) : Prop :=
  atype a = EXIT_SCOPE
  \/ ((atype a = ENTER_SCOPE \/ atype a = SAVE_MAT) /\ is_Some (aname a)).

(** The number of actions of one type. *)
Fixpoint count_type (t : Z) (actions : list action) : nat :=
  match actions with
  | [] => O
  | a :: rest =>
      ((if bool_decide (atype a = t) then 1 else 0) + count_type t rest)%nat
  end.

(** No prefix of the actions exits more scopes than it enters, [depth]
    scopes being open at the start. *)
Definition balanced_from (depth : nat) (actions : list action) : Prop :=
  forall n : nat,
    (count_type EXIT_SCOPE (take n actions)
     <= depth + count_type ENTER_SCOPE (take n actions))%nat.

Definition balanced (actions : list action) : Prop := balanced_from 0 actions.

(** The scope stack after some actions, as the specification describes it:
    a name is pushed when a scope is entered and the last one is dropped
    when a scope is left. *)
Fixpoint scope_stack (actions : list action) (scopes : list string) : list string :=
  match actions with
  | [] => scopes
  | a :: rest =>
      if bool_decide (atype a = ENTER_SCOPE) then
        scope_stack rest (scopes ++ [default EmptyString (aname a)])
      else if bool_decide (atype a = EXIT_SCOPE) then
        scope_stack rest (removelast scopes)
      else scope_stack rest scopes
  end.

(** The lines of one entry in a replay that completes, spelled out. They
    are the missing-file line naming both candidate paths; or the
    comparison-error line naming the entry's relative path; or a result line
    with the name and the distance, green below 0.001, and otherwise yellow
    or red with the statistics and followed by the error line of the write
    that failed. *)
Definition lines_of_entry (ext tmp_dir1 tmp_dir2 : string)
    (scopes : list string) (name : string) (ls : list line) : Prop :=
  let relative := scopes ++ [name +:+ ext] in
  let error := fun e : exn =>
    Line None [Str ("Error when comparing " +:+ dq);
               Str (os.path_join_args relative);
               Str (dq +:+ ": " +:+ dq); ExnText e; Str (dq +:+ ".")] in
  ls = [Line None [Str ("Cannot find file matrices: " +:+ dq);
                   Str (os.path_join tmp_dir1 relative);
                   Str (dq +:+ " or " +:+ dq);
                   Str (os.path_join tmp_dir2 relative); Str dq]]
  \/ (exists e : exn, ls = [error e])
  \/ (exists (d : float) (diff : list float),
        let text := [Str (PyStr.repeat "    " (length scopes) +:+ name +:+ ": d=");
                     Num d] in
        if PrimFloat.ltb d 0.001 then ls = [Line (Some green) text]
        else exists e : exn,
          ls = [Line (Some (if PrimFloat.ltb d 10 then yellow else red))
                  (text ++ [Str ", min="; StatOf np_min diff;
                            Str ", max="; StatOf np_max diff;
                            Str ", avg="; StatOf np_average diff;
                            Str ", median="; StatOf np_median diff;
                            Str ", std="; StatOf np_std diff]);
                error e]).

(** The lines of a replay that completes, action by action, from a given
    stack of scopes: the scope line of an entered scope (four spaces for
    every open scope, the name, a slash), nothing for a scope that is left,
    and the lines of an entry under the scopes open at that moment. *)
Inductive lines_of_flow (ext tmp_dir1 tmp_dir2 : string)
    : list string -> list action -> list (list line) -> Prop :=
  | lines_done (scopes : list string) :
      lines_of_flow ext tmp_dir1 tmp_dir2 scopes [] []
  | lines_enter (scopes : list string) (a : action) (name : string)
        (rest : list action) (chunks : list (list line)) :
      atype a = ENTER_SCOPE -> aname a = Some name ->
      lines_of_flow ext tmp_dir1 tmp_dir2 (scopes ++ [name]) rest chunks ->
      lines_of_flow ext tmp_dir1 tmp_dir2 scopes (a :: rest)
        ([Line (Some white)
            [Str (PyStr.repeat "    " (length scopes) +:+ name +:+ "/")]]
         :: chunks)
  | lines_exit (scopes : list string) (a : action)
        (rest : list action) (chunks : list (list line)) :
      atype a = EXIT_SCOPE ->
      lines_of_flow ext tmp_dir1 tmp_dir2 (removelast scopes) rest chunks ->
      lines_of_flow ext tmp_dir1 tmp_dir2 scopes (a :: rest) ([] :: chunks)
  | lines_save (scopes : list string) (a : action) (name : string)
        (rest : list action) (ls : list line) (chunks : list (list line)) :
      atype a = SAVE_MAT -> aname a = Some name ->
      lines_of_entry ext tmp_dir1 tmp_dir2 scopes name ls ->
      lines_of_flow ext tmp_dir1 tmp_dir2 scopes rest chunks ->
      lines_of_flow ext tmp_dir1 tmp_dir2 scopes (a :: rest) (ls :: chunks).

(** What a call leaves of the world when it writes no file: the files are
    the same, and the output grew by the lines [ls]. *)
Definition grows (w w' : world) (ls : list line) : Prop :=
  files w' = files w /\ stdout w' = stdout w ++ ls.

(** The outcomes of one step of the loop, by the type of the action. *)
Inductive step_outcome (scopes : list string) (a : action) (w : world)
    : result (list string) * world -> Prop :=
  | outcome_enter (n : string) :
      atype a = ENTER_SCOPE -> aname a = Some n ->
      step_outcome scopes a w
        (Ok (scopes ++ [n]), printed w (scope_line scopes n))
  | outcome_exit :
      atype a = EXIT_SCOPE -> scopes <> [] ->
      step_outcome scopes a w (Ok (removelast scopes), w)
  | outcome_underflow :
      atype a = EXIT_SCOPE -> scopes = [] ->
      step_outcome scopes a w (Raise IndexError_pop_from_empty_list, w)
  | outcome_save (n : string) (w' : world) (ls : list line) :
      atype a = SAVE_MAT -> aname a = Some n ->
      grows w w' ls -> ls <> [] ->
      step_outcome scopes a w (Ok scopes, w')
  | outcome_no_name :
      atype a = ENTER_SCOPE \/ atype a = SAVE_MAT -> aname a = None ->
      step_outcome scopes a w (Raise KeyError_name, w)
  | outcome_unknown :
      atype a <> ENTER_SCOPE -> atype a <> EXIT_SCOPE -> atype a <> SAVE_MAT ->
      step_outcome scopes a w (Raise Exception_unknown_action_type, w).

(** ** The inputs of the examples *)

Module Scenario.

Definition nl : string := String PyStr.newline EmptyString.

(** The manifest of the specification's end-to-end scenarios: the
    extension, the entry [a], the scope [g] with the entry [b]. *)
Definition lists_txt : string :=
  ".yml" +:+ nl +:+ "a" +:+ nl +:+ "+g" +:+ nl +:+ "b" +:+ nl +:+ "-" +:+ nl.

(** A manifest with the entry [a] alone. *)
Definition one_entry : MatList :=
  {| ext := ".yml"; flow := [Action SAVE_MAT (Some "a")] |}.

(** A manifest that enters a scope and leaves it. *)
Definition one_scope : MatList :=
  {| ext := ".yml"; flow := [Action ENTER_SCOPE (Some "g"); Action EXIT_SCOPE None] |}.

(** A manifest that leaves a scope it never entered, then has an entry. *)
Definition underflow : MatList :=
  {| ext := ".yml"; flow := [Action EXIT_SCOPE None; Action SAVE_MAT (Some "a")] |}.

(** A fresh world with the given files. *)
Definition world_of (fs : gmap string file) : world := World fs ∅ [] [].

(** The directories [A] and [B] with the one file [a.yml] each. *)
Definition pair_a (a b : list (list float)) : world :=
  world_of (<["A/a.yml" := MatFile a]> (<["B/a.yml" := MatFile b]> ∅)).

(** The directories of the specification's second scenario: [a.yml] is the
    same on both sides, [g/b.yml] has two elements in [A] and three in
    [B]. *)
Definition mismatch_b : world :=
  world_of (<["A/a.yml" := MatFile [[1; 2]%float]]>
           (<["B/a.yml" := MatFile [[1; 2]%float]]>
           (<["A/g/b.yml" := MatFile [[1; 2]%float]]>
           (<["B/g/b.yml" := MatFile [[1; 2; 3]%float]]> ∅)))).

(** The directories of the first scenario: the same files on both sides. *)
Definition identical : world :=
  world_of (<["A/a.yml" := MatFile [[1; 2]%float]]>
           (<["B/a.yml" := MatFile [[1; 2]%float]]>
           (<["A/g/b.yml" := MatFile [[1; 2]%float]]>
           (<["B/g/b.yml" := MatFile [[1; 2]%float]]> ∅)))).

(** The same directories without [g/b.yml] in [B]. *)
Definition missing_b : world :=
  world_of (<["A/a.yml" := MatFile [[1; 2]%float]]>
           (<["B/a.yml" := MatFile [[1; 2]%float]]>
           (<["A/g/b.yml" := MatFile [[1; 2]%float]]> ∅))).

End Scenario.

(** What the constructor guarantees of the names. *)
Definition parsed_name_ok (a : action) : Prop :=
  match aname a with
  | Some n =>
      PyStr.strip n = n
      /\ (atype a = SAVE_MAT ->
          exists c r, n = String c r /\ c <> "-"%char /\ c <> "+"%char
                      /\ PyStr.isspace c = false)
  | None => atype a = EXIT_SCOPE
  end.

(** ** The script *)

(** Lines 148 to 162, on the two directories that [argparse] read.
    [read_text path] is the text that [open(path, 'r')] gives, and [None]
    when the file cannot be opened: the exception of [open] then ends the
    script before the replay starts ([None] here). *)
Definition main (read_text : string -> option string)
    (tmp_dir1 tmp_dir2 : string) (w : world) : option (result unit * world) :=
  match read_text (os.path_join tmp_dir1 ["lists.txt"]) with
  | None => None
  | Some text => Some (compare (MatList_init text) tmp_dir1 tmp_dir2 w)
  end.

(** * Properties *)

(** ** Python strings *)

Module PyStrFacts.
Import PyStr.

Lemma rstrip_cons (c : ascii) (s : string) :
  rstrip (String c s)
  = match rstrip s with
    | EmptyString => if isspace c then EmptyString else String c EmptyString
    | r => String c r
    end.
Proof. reflexivity. Qed.

Lemma rstrip_idem (s : string) : rstrip (rstrip s) = rstrip s.
Proof.
  induction s as [|c s IH]; [reflexivity|].
  rewrite rstrip_cons. destruct (rstrip s) as [|d r] eqn:E.
  - destruct (isspace c) eqn:Hc; [reflexivity|].
    rewrite rstrip_cons. cbn [rstrip]. rewrite Hc. reflexivity.
  - rewrite rstrip_cons, IH. reflexivity.
Qed.

Lemma rstrip_cons_keep (c : ascii) (s : string) :
  isspace c = false -> rstrip (String c s) = String c (rstrip s).
Proof.
  intros Hc. cbn [rstrip]. destruct (rstrip s); [rewrite Hc|]; reflexivity.
Qed.

Lemma lstrip_head (s : string) :
  lstrip s = EmptyString
  \/ exists c r, lstrip s = String c r /\ isspace c = false.
Proof.
  induction s as [|c s IH]; [left; reflexivity|].
  cbn [lstrip]. destruct (isspace c) eqn:Hc; [exact IH|].
  right. exists c, s. split; [reflexivity|exact Hc].
Qed.

Lemma lstrip_strip (s : string) : lstrip (strip s) = strip s.
Proof.
  unfold strip. destruct (lstrip_head s) as [->|(c & r & -> & Hc)];
    [reflexivity|].
  rewrite rstrip_cons_keep by exact Hc. cbn [lstrip]. rewrite Hc. reflexivity.
Qed.

(** Trimming twice is trimming once. *)
Lemma strip_idem (s : string) : strip (strip s) = strip s.
Proof.
  unfold strip at 1. rewrite lstrip_strip. unfold strip. apply rstrip_idem.
Qed.

(** A trimmed string does not begin with white space. *)
Lemma strip_head (s : string) (c : ascii) (r : string) :
  strip s = String c r -> isspace c = false.
Proof.
  unfold strip. destruct (lstrip_head s) as [->|(d & t & -> & Hd)];
    [discriminate|].
  rewrite rstrip_cons_keep by exact Hd. congruence.
Qed.

Lemma len_pos (s : string) : (0 <? len s) = bool_decide (s <> EmptyString).
Proof.
  destruct s as [|c s]; [reflexivity|].
  unfold len. cbn [String.length].
  rewrite bool_decide_eq_true_2 by discriminate.
  apply Z.ltb_lt. lia.
Qed.

(** The lines read from a text are the text, cut after each line feed. *)
Lemma readlines_concat (s : string) :
  fold_right String.append EmptyString (readlines s) = s.
Proof.
  induction s as [|c s IH]; [reflexivity|].
  cbn [readlines]. case_bool_decide.
  - cbn. rewrite IH. reflexivity.
  - destruct (readlines s) as [|l ls]; cbn in *; rewrite <- IH; reflexivity.
Qed.

End PyStrFacts.

(** ** The parser *)

Lemma init_line_spec (acc : list action) (l : string) :
  init_line acc l
  = acc ++ map action_of_spec
             (map spec_action_of_line
                  (filter (fun t => t <> EmptyString) [PyStr.strip l])).
Proof.
  unfold init_line. rewrite PyStrFacts.len_pos.
  rewrite filter_cons, filter_nil.
  destruct (PyStr.strip l) as [|c r] eqn:E.
  - rewrite bool_decide_eq_false_2 by (intros H; apply H; reflexivity).
    rewrite decide_False by (intros H; apply H; reflexivity).
    cbn. rewrite app_nil_r. reflexivity.
  - rewrite bool_decide_eq_true_2 by discriminate.
    rewrite decide_True by discriminate.
    cbn [PyStr.head PyStr.from1 map spec_action_of_line].
    repeat case_bool_decide; cbn [action_of_spec]; try reflexivity.
    rewrite <- E, PyStrFacts.strip_idem. reflexivity.
Qed.

Lemma init_flow_spec (ls : list string) (acc : list action) :
  fold_left init_line ls acc
  = acc ++ map action_of_spec
             (map spec_action_of_line
                  (filter (fun t => t <> EmptyString) (map PyStr.strip ls))).
Proof.
  revert acc. induction ls as [|l ls IH]; intros acc.
  - cbn. rewrite app_nil_r. reflexivity.
  - cbn [fold_left map]. rewrite IH, init_line_spec.
    rewrite <- app_assoc, <- !map_app. do 3 f_equal.
    rewrite !filter_cons, filter_nil. destruct (decide _); reflexivity.
Qed.

(** C5. The constructor builds the manifest that the specification
    describes: the extension is the first line trimmed (empty when the line
    is blank or absent), every later line that is blank once trimmed is
    skipped, and every other line gives one action, in the order of the
    lines: [ExitScope] for a first character '-', whatever follows it,
    [EnterScope] named by the trimmed rest of the line for a first
    character '+', and [SaveEntry] named by the whole trimmed line
    otherwise. *)
Theorem C5_parser_refines_spec (text : string) :
  MatList_init text
  = {| ext := fst (spec_manifest text);
       flow := map action_of_spec (snd (spec_manifest text)) |}.
Proof.
  unfold MatList_init, spec_manifest. cbn [fst snd].
  rewrite init_flow_spec. reflexivity.
Qed.

(** ** The model on the scenarios of the specification *)

Example strip_line :
  PyStr.strip ("  + g h  " +:+ Scenario.nl) = "+ g h"
  /\ PyStr.strip (PyStr.from1 "+ g h") = "g h".
Proof. by vm_compute. Qed.

Example path_join_examples :
  os.path_join "A" ["g"; "b.yml"] = "A/g/b.yml"
  /\ os.path_join "A/" ["g"; "b.yml"] = "A/g/b.yml"
  /\ os.path_join "A" ["/g"; "b.yml"] = "/g/b.yml"
  /\ os.path_join "A" ["diff"] = "A/diff".
Proof. by vm_compute. Qed.

Example parse_lists_txt :
  MatList_init Scenario.lists_txt
  = {| ext := ".yml";
       flow := [Action SAVE_MAT (Some "a"); Action ENTER_SCOPE (Some "g");
                Action SAVE_MAT (Some "b"); Action EXIT_SCOPE None] |}.
Proof. by vm_compute. Qed.

(** The first scenario: both entries are printed in green with the distance
    0, and nothing is made under [A/diff]. *)
Example scenario_identical :
  compare (MatList_init Scenario.lists_txt) "A" "B" Scenario.identical
  = (Ok (),
     World (files Scenario.identical) ∅
       [Line (Some green) [Str "a: d="; Num 0];
        Line (Some white) [Str "g/"];
        Line (Some green) [Str "    b: d="; Num 0]]
       ["A/a.yml"; "B/a.yml"; "A/g/b.yml"; "B/g/b.yml"]).
Proof. by vm_compute. Qed.

(** The second scenario: [a] is compared, and [g/b.yml] is reported with
    the exception of the subtraction. *)
Example scenario_mismatch :
  stdout (snd (compare (MatList_init Scenario.lists_txt) "A" "B"
                 Scenario.mismatch_b))
  = [Line (Some green) [Str "a: d="; Num 0];
     Line (Some white) [Str "g/"];
     Line None [Str ("Error when comparing " +:+ dq); Str "g/b.yml";
                Str (dq +:+ ": " +:+ dq); ExnText (ValueError_broadcast 3 2);
                Str (dq +:+ ".")]].
Proof. by vm_compute. Qed.

(** ** Floats *)

Module FloatFacts.

Lemma SF_ten : Prim2SF 10%float = S754_finite false 5629499534213120 (-49).
Proof. vm_compute. reflexivity. Qed.

Lemma SF_milli :
  Prim2SF 0.001%float = S754_finite false 4611686018427388 (-62).
Proof. vm_compute. reflexivity. Qed.

Lemma SF_infinity : Prim2SF infinity = S754_infinity false.
Proof. vm_compute. reflexivity. Qed.

Lemma SF_zero : Prim2SF 0%float = S754_zero false.
Proof. vm_compute. reflexivity. Qed.

Lemma SFcompare_antisym (x y : spec_float) :
  SFcompare y x = option_map CompOpp (SFcompare x y).
Proof.
  destruct x as [sx|sx| |sx mx ex], y as [sy|sy| |sy my ey];
    try destruct sx; try destruct sy; cbn [SFcompare option_map CompOpp];
    try reflexivity.
  - rewrite (Z.compare_antisym ey ex).
    destruct (ey ?= ex)%Z; cbn [CompOpp]; try reflexivity.
    rewrite (Pos.compare_cont_antisym mx my Eq). cbn [CompOpp].
    destruct (Pos.compare_cont Eq mx my); reflexivity.
  - rewrite (Z.compare_antisym ey ex).
    destruct (ey ?= ex)%Z; cbn [CompOpp]; try reflexivity.
    rewrite (Pos.compare_cont_antisym mx my Eq). reflexivity.
Qed.

(** [x <= y] excludes [y < x]. *)
Lemma leb_not_ltb (x y : float) :
  PrimFloat.leb x y = true -> PrimFloat.ltb y x = false.
Proof.
  rewrite leb_spec, ltb_spec. unfold SFleb, SFltb.
  rewrite (SFcompare_antisym (Prim2SF x) (Prim2SF y)).
  destruct (SFcompare (Prim2SF x) (Prim2SF y)) as [[ | | ]|];
    cbn [option_map CompOpp]; congruence.
Qed.

(** [10 <= d] excludes [d < 0.001]. *)
Lemma ten_leb_not_ltb_milli (d : float) :
  PrimFloat.leb 10 d = true -> PrimFloat.ltb d 0.001 = false.
Proof.
  rewrite leb_spec, ltb_spec, SF_ten, SF_milli. unfold SFleb, SFltb.
  destruct (Prim2SF d) as [s|s| |s m e]; try destruct s;
    cbn [SFcompare]; try congruence.
  destruct (Z.compare_spec (-49) e); destruct (Z.compare_spec e (-62));
    try congruence; lia.
Qed.

Lemma finite_SF (x : float) :
  finite x ->
  match Prim2SF x with
  | S754_zero _ | S754_finite _ _ _ => True
  | _ => False
  end.
Proof.
  unfold finite, is_finite, is_nan, is_infinity.
  rewrite !FloatAxioms.eqb_spec, abs_spec, SF_infinity. unfold SFeqb.
  destruct (Prim2SF x) as [s|s| |s m e]; try destruct s; cbn;
    try discriminate; auto.
Qed.

Lemma shl_align_same (m : positive) (e : Z) : shl_align m e e = (m, e).
Proof. unfold shl_align. rewrite Z.sub_diag. reflexivity. Qed.

(** The absolute value of a finite float minus itself is zero. *)
Lemma abs_sub_diag (x : float) :
  finite x -> PrimFloat.abs (PrimFloat.sub x x) = 0%float.
Proof.
  intros Hx. apply finite_SF in Hx. apply Prim2SF_inj.
  rewrite abs_spec, sub_spec, SF_zero. unfold SF64sub.
  destruct (Prim2SF x) as [s|s| |s m e]; try contradiction.
  - destruct s; reflexivity.
  - unfold SFsub. rewrite Z.min_id, shl_align_same. cbn [fst].
    rewrite Z.sub_diag. reflexivity.
Qed.

(** *** The pairwise sum *)

Lemma sum_from_zeros (a : list float) :
  zeros a -> np.sum_from 0%float a = 0%float.
Proof.
  unfold np.sum_from. induction 1 as [|x a -> _ IH]; [reflexivity|].
  cbn [fold_left]. exact IH.
Qed.

Lemma zip_add_zeros (r a : list float) :
  zeros r -> zeros a -> zeros (zip_with PrimFloat.add r a).
Proof.
  intros Hr. revert a. induction Hr as [|x r -> _ IH]; intros a Ha;
    [constructor|].
  destruct Ha as [|y a -> Ha]; [constructor|].
  cbn [zip_with]. constructor; [reflexivity|by apply IH].
Qed.

Lemma add_blocks_zeros (k : nat) (r a : list float) :
  zeros r -> zeros a ->
  zeros (fst (np.add_blocks k r a)) /\ zeros (snd (np.add_blocks k r a)).
Proof.
  revert r a. induction k as [|k IH]; intros r a Hr Ha; [by split|].
  cbn [np.add_blocks]. apply IH.
  - apply zip_add_zeros; [exact Hr|by apply Forall_take].
  - by apply Forall_drop.
Qed.

Lemma pairwise_block_zeros (a : list float) :
  zeros a -> np.pairwise_block a = 0%float.
Proof.
  intros Ha. unfold np.pairwise_block.
  destruct (add_blocks_zeros (Nat.div (length a) 8 - 1) (take 8 a) (drop 8 a))
    as [Hr Hrest]; [by apply Forall_take|by apply Forall_drop|].
  destruct (np.add_blocks _ _ _) as [r rest]. cbn [fst snd] in *.
  destruct r as [|r0 [|r1 [|r2 [|r3 [|r4 [|r5 [|r6 [|r7 [|r8 r]]]]]]]]];
    try (by apply sum_from_zeros).
  unfold zeros in Hr.
  repeat match goal with
         | H : Forall _ (_ :: _) |- _ => apply Forall_cons in H as [-> H]
         end.
  transitivity (np.sum_from 0%float rest);
    [f_equal; by vm_compute|by apply sum_from_zeros].
Qed.

Lemma pairwise_sum_rec_zeros (fuel : nat) (a : list float) :
  zeros a -> np.pairwise_sum_rec fuel a = 0%float.
Proof.
  revert a. induction fuel as [|fuel IH]; intros a Ha; cbn [np.pairwise_sum_rec];
    destruct (length a <? 8)%nat; try (by apply sum_from_zeros);
    destruct (length a <=? 128)%nat; try (by apply pairwise_block_zeros).
  rewrite !IH; [reflexivity|by apply Forall_drop|by apply Forall_take].
Qed.

(** The fuel does not matter once it is the length of the array. *)
Lemma pairwise_sum_rec_fuel (f1 f2 : nat) (a : list float) :
  (length a <= f1)%nat -> (length a <= f2)%nat ->
  np.pairwise_sum_rec f1 a = np.pairwise_sum_rec f2 a.
Proof.
  revert f2 a. induction f1 as [|f1 IH]; intros f2 a H1 H2.
  - destruct a; [|cbn [length] in H1; lia]. by destruct f2.
  - destruct f2 as [|f2].
    { destruct a; [reflexivity|cbn [length] in H2; lia]. }
    cbn [np.pairwise_sum_rec].
    destruct (length a <? 8)%nat; [reflexivity|].
    destruct (Nat.leb_spec (length a) 128) as [|Hbig]; [reflexivity|].
    set (n2 := (Nat.div (length a) 2 - Nat.modulo (Nat.div (length a) 2) 8)%nat).
    assert (Hhalf : (64 <= Nat.div (length a) 2 < length a)%nat).
    { split; [apply Nat.div_le_lower_bound; lia|apply Nat.div_lt; lia]. }
    assert (Hmod : (Nat.modulo (Nat.div (length a) 2) 8 < 8)%nat)
      by (apply Nat.mod_upper_bound; lia).
    assert (Hn2 : (1 <= n2 < length a)%nat) by (unfold n2; lia).
    f_equal; apply IH; rewrite ?length_take, ?length_drop; lia.
Qed.

(** The recursion of numpy's pairwise sum, without the fuel. *)
Lemma pairwise_sum_unfold (a : list float) :
  np.pairwise_sum a
  = if (length a <? 8)%nat then np.sum_from 0%float a
    else if (length a <=? 128)%nat then np.pairwise_block a
    else let n2 := (Nat.div (length a) 2
                    - Nat.modulo (Nat.div (length a) 2) 8)%nat in
         PrimFloat.add (np.pairwise_sum (take n2 a))
                       (np.pairwise_sum (drop n2 a)).
Proof.
  unfold np.pairwise_sum at 1.
  destruct (length a) as [|n] eqn:E; [by destruct a|].
  cbn [np.pairwise_sum_rec]. rewrite E.
  destruct (S n <? 8)%nat; [reflexivity|].
  destruct (Nat.leb_spec (S n) 128) as [|Hbig]; [reflexivity|].
  cbv zeta. unfold np.pairwise_sum.
  assert (Hhalf : (64 <= Nat.div (S n) 2 < S n)%nat).
  { split; [apply Nat.div_le_lower_bound; lia|apply Nat.div_lt; lia]. }
  assert (Hmod : (Nat.modulo (Nat.div (S n) 2) 8 < 8)%nat)
    by (apply Nat.mod_upper_bound; lia).
  f_equal; apply pairwise_sum_rec_fuel;
    rewrite ?length_take, ?length_drop; lia.
Qed.

(** The sum of the absolute values of zeros is zero. *)
Lemma norm1_zeros (n : nat) :
  np.linalg_norm1 (replicate n 0%float) = 0%float.
Proof.
  unfold np.linalg_norm1, np.add_reduce, np.pairwise_sum.
  rewrite pairwise_sum_rec_zeros; [by vm_compute|].
  induction n as [|n IH]; constructor; [by vm_compute|exact IH].
Qed.

(** The difference of an array of finite floats with itself. *)
Lemma abs_sub_self (a : list float) :
  Forall finite a ->
  np.abs (zip_with PrimFloat.sub a a) = replicate (length a) 0%float.
Proof.
  induction 1 as [|x a Hx _ IH]; [reflexivity|].
  cbn [zip_with np.abs map length replicate].
  rewrite abs_sub_diag by exact Hx. f_equal. exact IH.
Qed.

(** Arrays of lengths that differ, neither of them 1, do not subtract. *)
Lemma subtract_mismatch (a b : list float) :
  length a <> length b -> length a <> 1%nat -> length b <> 1%nat ->
  np.subtract a b = Raise (ValueError_broadcast (length a) (length b)).
Proof.
  intros Hab Ha Hb. unfold np.subtract.
  rewrite (proj2 (Nat.eqb_neq _ _) Hab).
  destruct a as [|x [|x' a]], b as [|y [|y' b]]; cbn [length] in *;
    try reflexivity; congruence.
Qed.

Lemma subtract_nonempty (a b delta : list float) :
  a <> [] -> b <> [] -> np.subtract a b = Ok delta -> delta <> [].
Proof.
  intros Ha Hb. unfold np.subtract.
  destruct a as [|x a]; [done|]. destruct b as [|y b]; [done|].
  destruct (length (x :: a) =? length (y :: b))%nat.
  - intros [= <-]. discriminate.
  - destruct a, b; intros [= <-]; discriminate.
Qed.

Lemma subtract_same_length (a b : list float) :
  length a = length b -> np.subtract a b = Ok (zip_with PrimFloat.sub a b).
Proof.
  intros Hab. unfold np.subtract. rewrite Hab, Nat.eqb_refl. reflexivity.
Qed.

End FloatFacts.


(** ** The steps of the replay *)

(** Counts of actions and comparisons of action types, by cases. *)
Ltac count_cases :=
  cbn [count_type take length] in *;
  repeat case_bool_decide;
  unfold ENTER_SCOPE, EXIT_SCOPE, SAVE_MAT in *;
  try lia.

Section ReplayFacts.

Context (self : MatList) (tmp_dir1 tmp_dir2 : string).

Lemma bind_unfold {A B : Type} (m : io A) (f : A -> io B) (w : world) :
  (m ≫= f) w
  = match m w with
    | (Ok a, w') => f a w'
    | (Raise e, w') => (Raise e, w')
    end.
Proof. reflexivity. Qed.

(** Saving the difference always fails on the file name, after the
    directory was made; no file is written. *)
Lemma save_diff_raises (scopes : list string) (mat_name : string)
    (diff : list float) (w : world) :
  exists e w',
    save_diff self tmp_dir1 scopes mat_name diff w = (Raise e, w')
    /\ files w' = files w /\ stdout w' = stdout w /\ loaded w' = loaded w.
Proof.
  unfold save_diff. rewrite bind_unfold. unfold os.makedirs.
  case_bool_decide; [eauto 10|].
  destruct (filter _ _); [|eauto 10].
  rewrite bind_unfold. cbn. eauto 10.
Qed.

Lemma ret_unfold {A : Type} (a : A) (w : world) : (mret a : io A) w = (Ok a, w).
Proof. reflexivity. Qed.

Lemma loading_loading (w : world) (ps qs : list string) :
  loading (loading w ps) qs = loading w (ps ++ qs).
Proof. unfold loading. cbn. rewrite <- app_assoc. reflexivity. Qed.

(** Loading a file and flattening what it holds. *)
Lemma load_flatten {B : Type} (p : string) (k : list float -> io B) (w : world) :
  (load_mat p ≫= (fun a => flatten a ≫= k)) w
  = match flat_array (files w !! p) with
    | Ok m => k m (loading w [p])
    | Raise e => (Raise e, loading w [p])
    end.
Proof.
  unfold load_mat, cv2.read_first_mat, flat_array, np.flatten.
  rewrite bind_unfold.
  destruct (files w !! p) as [[rows| |]|]; try reflexivity.
  destruct (concat rows) as [|x m] eqn:E; cbn [flatten];
    rewrite bind_unfold; [reflexivity|].
  unfold np.flatten. rewrite E. reflexivity.
Qed.

Lemma flat_array_matrix (f : option file) (rows : list (list float)) :
  f = Some (MatFile rows) -> np.flatten rows <> [] ->
  flat_array f = Ok (np.flatten rows).
Proof.
  intros -> Hne. unfold flat_array. by destruct (np.flatten rows).
Qed.

(** The body of the [try] once both arrays are there. *)
Lemma compare_entry_arrays (scopes : list string) (mat_name p1 p2 : string)
    (m1 m2 : list float) (w : world) :
  flat_array (files w !! p1) = Ok m1 ->
  flat_array (files w !! p2) = Ok m2 ->
  compare_entry self tmp_dir1 scopes mat_name p1 p2 w
  = match np.subtract m2 m1 with
    | Raise e => (Raise e, loading w [p1; p2])
    | Ok delta =>
        match np.abs delta with
        | [] => (Raise ValueError_zero_size_reduction, loading w [p1; p2])
        | diff =>
            report self tmp_dir1 scopes mat_name diff (np.linalg_norm1 diff)
              (StatOf np_min diff) (StatOf np_max diff) (StatOf np_average diff)
              (StatOf np_median diff) (StatOf np_std diff) (loading w [p1; p2])
        end
    end.
Proof.
  intros H1 H2. unfold compare_entry.
  rewrite load_flatten, H1, load_flatten. cbn [files loading].
  rewrite H2, loading_loading. cbn [app].
  rewrite bind_unfold. unfold lift.
  destruct (np.subtract m2 m1) as [delta|e]; [|reflexivity].
  destruct (np.abs delta) as [|x diff] eqn:E; [reflexivity|].
  unfold np.reduce_nonempty, np.reduce.
  repeat ((rewrite ret_unfold || rewrite bind_unfold); cbv beta iota).
  reflexivity.
Qed.

(** The body of the [try] when an array is missing: the first file alone
    is loaded when it gives none, both when the second gives none. *)
Lemma compare_entry_first_fails (scopes : list string)
    (mat_name p1 p2 : string) (e : exn) (w : world) :
  flat_array (files w !! p1) = Raise e ->
  compare_entry self tmp_dir1 scopes mat_name p1 p2 w
  = (Raise e, loading w [p1]).
Proof. intros H1. unfold compare_entry. by rewrite load_flatten, H1. Qed.

Lemma compare_entry_second_fails (scopes : list string)
    (mat_name p1 p2 : string) (m1 : list float) (e : exn) (w : world) :
  flat_array (files w !! p1) = Ok m1 ->
  flat_array (files w !! p2) = Raise e ->
  compare_entry self tmp_dir1 scopes mat_name p1 p2 w
  = (Raise e, loading w [p1; p2]).
Proof.
  intros H1 H2. unfold compare_entry.
  rewrite load_flatten, H1, load_flatten. cbn [files loading].
  by rewrite H2, loading_loading.
Qed.

Lemma compare_entry_loaded (scopes : list string) (mat_name p1 p2 : string)
    (rows1 rows2 : list (list float)) (w : world) :
  files w !! p1 = Some (MatFile rows1) -> np.flatten rows1 <> [] ->
  files w !! p2 = Some (MatFile rows2) -> np.flatten rows2 <> [] ->
  compare_entry self tmp_dir1 scopes mat_name p1 p2 w
  = match np.subtract (np.flatten rows2) (np.flatten rows1) with
    | Raise e => (Raise e, loading w [p1; p2])
    | Ok delta =>
        match np.abs delta with
        | [] => (Raise ValueError_zero_size_reduction, loading w [p1; p2])
        | diff =>
            report self tmp_dir1 scopes mat_name diff (np.linalg_norm1 diff)
              (StatOf np_min diff) (StatOf np_max diff) (StatOf np_average diff)
              (StatOf np_median diff) (StatOf np_std diff) (loading w [p1; p2])
        end
    end.
Proof.
  intros H1 N1 H2 N2. apply compare_entry_arrays; by apply flat_array_matrix.
Qed.

(** The colour in which [report] prints a distance. *)
Lemma report_prints (scopes : list string) (mat_name : string)
    (diff : list float) (d : float) (mn mx av md sd : piece) (w : world) :
  exists r l w',
    report self tmp_dir1 scopes mat_name diff d mn mx av md sd w = (r, w')
    /\ grows w w' [l]
    /\ loaded w' = loaded w
    /\ line_colour l
       = Some (if PrimFloat.ltb d 0.001 then green
               else if PrimFloat.ltb d 10 then yellow else red).
Proof.
  unfold report. destruct (PrimFloat.ltb d 0.001) eqn:E1.
  - do 3 eexists. split; [reflexivity|]. repeat split.
  - rewrite bind_unfold.
    destruct (PrimFloat.ltb d 10) eqn:E2; cbn [print];
      match goal with
      | |- context [save_diff _ _ ?s ?n ?x ?w0] =>
          destruct (save_diff_raises s n x w0)
            as (e & w' & -> & Hf & Ho & Hl)
      end;
      exists (Raise e); eexists; exists w';
      (split; [reflexivity|]); unfold grows; rewrite Hf, Ho, Hl;
      repeat split.
Qed.

(** The body of the [try] writes no file; when it ends without an
    exception it has printed a line. *)
Lemma compare_entry_grows (scopes : list string) (mat_name p1 p2 : string)
    (w : world) :
  exists r w' ls,
    compare_entry self tmp_dir1 scopes mat_name p1 p2 w = (r, w')
    /\ grows w w' ls /\ (r = Ok () -> ls <> []).
Proof.
  assert (Hraise : forall e ps,
    exists r w' ls, (Raise e, loading w ps) = (r, w')
                    /\ grows w w' ls /\ (r = Ok () -> ls <> [])).
  { intros e ps. exists (Raise e), (loading w ps), [].
    split; [reflexivity|]. split; [split; cbn; by rewrite ?app_nil_r|discriminate]. }
  destruct (flat_array (files w !! p1)) as [m1|e1] eqn:H1.
  2:{ unfold compare_entry. rewrite load_flatten, H1. apply Hraise. }
  destruct (flat_array (files w !! p2)) as [m2|e2] eqn:H2.
  2:{ unfold compare_entry. rewrite load_flatten, H1, load_flatten.
      cbn [files loading]. rewrite H2, loading_loading. apply Hraise. }
  rewrite (compare_entry_arrays scopes mat_name p1 p2 m1 m2 w H1 H2).
  destruct (np.subtract m2 m1) as [delta|e]; [|apply Hraise].
  destruct (np.abs delta) as [|x diff] eqn:E; [apply Hraise|].
  cbv beta iota zeta.
  match goal with
  | |- context [report _ _ ?s ?n ?df ?d ?a ?b ?c ?e ?f ?w0] =>
      destruct (report_prints s n df d a b c e f w0)
        as (r & l & w' & -> & [Hf Ho] & _ & _)
  end.
  exists r, w', [l]. split; [reflexivity|]. split; [|discriminate].
  split; [rewrite Hf|rewrite Ho]; reflexivity.
Qed.

(** The branch of [SAVE_MAT] never raises, writes no file, and prints at
    least one line. *)
Lemma save_mat_grows (scopes : list string) (mat_name : string) (w : world) :
  exists w' ls,
    save_mat self tmp_dir1 tmp_dir2 scopes mat_name w = (Ok (), w')
    /\ grows w w' ls /\ ls <> [].
Proof.
  unfold save_mat, os.path_isfile. rewrite bind_unfold.
  destruct (bool_decide (_ ∈ dom (files w))) eqn:E1; rewrite bind_unfold;
    [destruct (bool_decide (entry_path self tmp_dir2 scopes mat_name ∈ dom (files w))) eqn:E2|];
    cbn [andb mret io_ret];
    try (eexists; eexists; split; [reflexivity|]; split; [by split|discriminate]).
  unfold try_except.
  destruct (compare_entry_grows scopes mat_name
              (entry_path self tmp_dir1 scopes mat_name)
              (entry_path self tmp_dir2 scopes mat_name) w)
    as ([[]|e] & w' & ls & -> & [Hf Ho] & Hne).
  - exists w', ls. split; [reflexivity|]. split; [by split|by apply Hne].
  - eexists; eexists. split; [reflexivity|]. split.
    + split; cbn; [exact Hf|rewrite Ho, <- app_assoc; reflexivity].
    + by destruct ls.
Qed.

Lemma step_outcome_intro (scopes : list string) (a : action) (w : world) :
  step_outcome scopes a w (step self tmp_dir1 tmp_dir2 scopes a w).
Proof.
  unfold step. repeat case_bool_decide.
  - unfold action_name. destruct (aname a) as [n|] eqn:En.
    + rewrite bind_unfold. cbn. by apply outcome_enter.
    + rewrite bind_unfold. cbn. apply outcome_no_name; auto.
  - unfold scopes_pop. destruct scopes as [|s0 rest].
    + by apply outcome_underflow.
    + by apply outcome_exit.
  - unfold action_name. destruct (aname a) as [n|] eqn:En.
    + rewrite bind_unfold. cbn [mret io_ret]. rewrite bind_unfold.
      destruct (save_mat_grows scopes n w) as (w' & ls & -> & Hg & Hne).
      cbn. by eapply outcome_save.
    + rewrite bind_unfold. cbn. apply outcome_no_name; auto.
  - by apply outcome_unknown.
Qed.
(** ** The loop *)

Lemma replay_cons (a : action) (rest : list action) (scopes : list string)
    (w : world) :
  replay self tmp_dir1 tmp_dir2 (a :: rest) scopes w
  = match step self tmp_dir1 tmp_dir2 scopes a w with
    | (Ok scopes', w') => replay self tmp_dir1 tmp_dir2 rest scopes' w'
    | (Raise e, w') => (Raise e, w')
    end.
Proof. reflexivity. Qed.

(** Replaying a flow is replaying a prefix and then the rest, unless the
    prefix raises. *)
Lemma replay_app (pre post : list action) (scopes : list string) (w : world) :
  replay self tmp_dir1 tmp_dir2 (pre ++ post) scopes w
  = match replay self tmp_dir1 tmp_dir2 pre scopes w with
    | (Ok scopes', w') => replay self tmp_dir1 tmp_dir2 post scopes' w'
    | (Raise e, w') => (Raise e, w')
    end.
Proof.
  revert scopes w. induction pre as [|a pre IH]; intros scopes w;
    [reflexivity|].
  rewrite <- app_comm_cons, !replay_cons.
  destruct (step self tmp_dir1 tmp_dir2 scopes a w) as [[scopes'|e] w'];
    [apply IH|reflexivity].
Qed.

(** No step writes a file. *)
Lemma step_files (scopes : list string) (a : action) (w : world) :
  files (snd (step self tmp_dir1 tmp_dir2 scopes a w)) = files w.
Proof.
  destruct (step_outcome_intro scopes a w) as [n| | |n w' ls ? ? [Hf _] _| |];
    try reflexivity.
  exact Hf.
Qed.

Lemma replay_files (actions : list action) (scopes : list string) (w : world) :
  files (snd (replay self tmp_dir1 tmp_dir2 actions scopes w)) = files w.
Proof.
  revert scopes w. induction actions as [|a rest IH]; intros scopes w;
    [reflexivity|].
  rewrite replay_cons. pose proof (step_files scopes a w) as Hs.
  destruct (step self tmp_dir1 tmp_dir2 scopes a w) as [[scopes'|e] w'];
    cbn [snd] in *; [rewrite IH|]; exact Hs.
Qed.

(** A replay that completes leaves the stack of scopes that the
    specification describes. *)
Lemma replay_scope_stack (actions : list action) (scopes scopes' : list string)
    (w w' : world) :
  replay self tmp_dir1 tmp_dir2 actions scopes w = (Ok scopes', w') ->
  scopes' = scope_stack actions scopes.
Proof.
  revert scopes w. induction actions as [|a rest IH]; intros scopes w.
  - cbn [replay scope_stack]. rewrite ret_unfold. congruence.
  - rewrite replay_cons. cbn [scope_stack].
    destruct (step_outcome_intro scopes a w) as [n Ht Hn|Ht Hs|Ht Hs|n w1 ls Ht Hn _ _|Ht Hn|H0 H1 H2];
      try discriminate; intros H; apply IH in H; subst scopes';
      repeat case_bool_decide; try congruence; try (unfold ENTER_SCOPE, EXIT_SCOPE, SAVE_MAT in *; lia).
    rewrite Hn. reflexivity.
Qed.

(** On well-formed actions the loop raises nothing but the [IndexError] of
    an empty stack. *)
Lemma replay_well_formed (actions : list action) (scopes : list string)
    (w : world) :
  Forall well_formed actions ->
  (exists scopes', fst (replay self tmp_dir1 tmp_dir2 actions scopes w) = Ok scopes')
  \/ fst (replay self tmp_dir1 tmp_dir2 actions scopes w)
     = Raise IndexError_pop_from_empty_list.
Proof.
  intros Hwf. revert scopes w.
  induction Hwf as [|a rest Ha _ IH]; intros scopes w; [left; by eexists|].
  rewrite replay_cons.
  destruct (step_outcome_intro scopes a w) as [n Ht Hn|Ht Hs|Ht Hs|n w1 ls Ht Hn _ _|Ht Hn|H0 H1 H2];
    try apply IH.
  - right. reflexivity.
  - exfalso. destruct Ha as [Ha|[_ [x Hx]]]; [|congruence].
    unfold ENTER_SCOPE, EXIT_SCOPE, SAVE_MAT in *. lia.
  - exfalso. destruct Ha as [Ha|[[Ha|Ha] _]]; congruence.
Qed.

Lemma compare_unfold (w : world) :
  compare self tmp_dir1 tmp_dir2 w
  = match replay self tmp_dir1 tmp_dir2 (flow self) [] w with
    | (Ok _, w') => (Ok (), w')
    | (Raise e, w') => (Raise e, w')
    end.
Proof. reflexivity. Qed.

Lemma length_removelast_pred (l : list string) :
  length (removelast l) = pred (length l).
Proof.
  induction l as [|x [|y l] IH]; try reflexivity.
  change (removelast (x :: y :: l)) with (x :: removelast (y :: l)).
  cbn [length] in *. rewrite IH. reflexivity.
Qed.

(** With enough scopes open for every exit, well-formed actions are
    replayed to the end, and the stack has the depth that the counts give. *)
Lemma replay_balanced (actions : list action) (scopes : list string)
    (w : world) :
  Forall well_formed actions ->
  balanced_from (length scopes) actions ->
  exists scopes' w',
    replay self tmp_dir1 tmp_dir2 actions scopes w = (Ok scopes', w')
    /\ (length scopes' + count_type EXIT_SCOPE actions
        = length scopes + count_type ENTER_SCOPE actions)%nat.
Proof.
  intros Hwf. revert scopes w.
  induction Hwf as [|a rest Ha _ IH]; intros scopes w Hb.
  - exists scopes, w. split; [reflexivity|]. cbn. lia.
  - rewrite replay_cons.
    assert (Hrest : forall k : nat,
      (k + count_type EXIT_SCOPE [a]
       = length scopes + count_type ENTER_SCOPE [a])%nat ->
      balanced_from k rest).
    { intros k Hk n. specialize (Hb (S n)). count_cases. }
    pose proof (Hb 1%nat) as H1. cbn [take] in H1. rewrite take_0 in H1.
    destruct (step_outcome_intro scopes a w)
      as [n Ht Hn|Ht Hs|Ht Hs|n w1 ls Ht Hn _ _|Ht Hn|H0 H2 H3].
    + destruct (IH (scopes ++ [n]) (printed w (scope_line scopes n)))
        as (s' & w' & -> & Hl).
      { apply Hrest. rewrite length_app. count_cases. }
      exists s', w'. split; [reflexivity|].
      rewrite length_app in Hl. count_cases.
    + assert (length scopes <> 0%nat) by (destruct scopes; [done|discriminate]).
      destruct (IH (removelast scopes) w) as (s' & w' & -> & Hl).
      { apply Hrest. rewrite length_removelast_pred. count_cases. }
      exists s', w'. split; [reflexivity|].
      rewrite length_removelast_pred in Hl. count_cases.
    + exfalso. subst scopes. count_cases.
    + destruct (IH scopes w1) as (s' & w' & -> & Hl).
      { apply Hrest. count_cases. }
      exists s', w'. split; [reflexivity|]. count_cases.
    + exfalso. destruct Ha as [Ha|[_ [x Hx]]]; [|congruence]. count_cases.
    + exfalso. destruct Ha as [Ha|[[Ha|Ha] _]]; congruence.
Qed.

(** ** The branch of [SAVE_MAT], case by case *)

Lemma step_save (scopes : list string) (n : string) (w : world) :
  step self tmp_dir1 tmp_dir2 scopes (Action SAVE_MAT (Some n)) w
  = match save_mat self tmp_dir1 tmp_dir2 scopes n w with
    | (Ok _, w') => (Ok scopes, w')
    | (Raise e, w') => (Raise e, w')
    end.
Proof.
  unfold step. cbn [atype aname action_name].
  rewrite bool_decide_eq_false_2 by discriminate.
  rewrite bool_decide_eq_false_2 by discriminate.
  rewrite bool_decide_eq_true_2 by reflexivity.
  rewrite bind_unfold, ret_unfold. cbv beta iota. rewrite bind_unfold.
  destruct (save_mat self tmp_dir1 tmp_dir2 scopes n w) as [[[]|e] w'];
    reflexivity.
Qed.

(** One of the two files is missing: the line of line 143 is printed and
    nothing else happens. *)
Lemma save_mat_missing (scopes : list string) (n : string) (w : world) :
  entry_path self tmp_dir1 scopes n ∉ dom (files w)
  \/ entry_path self tmp_dir2 scopes n ∉ dom (files w) ->
  save_mat self tmp_dir1 tmp_dir2 scopes n w
  = (Ok (), printed w (missing_line (entry_path self tmp_dir1 scopes n)
                                    (entry_path self tmp_dir2 scopes n))).
Proof.
  intros H. unfold save_mat, os.path_isfile. rewrite bind_unfold.
  case_bool_decide as H1; rewrite bind_unfold.
  - case_bool_decide as H2; [tauto|reflexivity].
  - reflexivity.
Qed.

(** Both files are there: the body of the [try] runs, and an exception
    becomes the line of line 140. *)
Lemma save_mat_present (scopes : list string) (n : string) (w : world) :
  entry_path self tmp_dir1 scopes n ∈ dom (files w) ->
  entry_path self tmp_dir2 scopes n ∈ dom (files w) ->
  save_mat self tmp_dir1 tmp_dir2 scopes n w
  = match compare_entry self tmp_dir1 scopes n
            (entry_path self tmp_dir1 scopes n)
            (entry_path self tmp_dir2 scopes n) w with
    | (Ok a, w') => (Ok a, w')
    | (Raise e, w') => (Ok (), printed w' (error_line self scopes n e))
    end.
Proof.
  intros H1 H2. unfold save_mat, os.path_isfile. rewrite bind_unfold.
  rewrite bool_decide_eq_true_2 by exact H1. rewrite bind_unfold.
  rewrite bool_decide_eq_true_2 by exact H2. reflexivity.
Qed.

Lemma lookup_in_dom (w : world) (p : string) (f : file) :
  files w !! p = Some f -> p ∈ dom (files w).
Proof. intros H. apply elem_of_dom. by exists f. Qed.

Lemma append_cons (s : string) (c : ascii) (b : string) :
  s +:+ String c b = (s +:+ String c EmptyString) +:+ b.
Proof.
  induction s as [|d s IH]; [reflexivity|].
  change (String d (s +:+ String c b)
          = String d ((s +:+ String c EmptyString) +:+ b)).
  by rewrite IH.
Qed.

(** The path of an entry ends with the name followed by the extension. *)
Lemma join_step_suffix (path b : string) :
  exists pre, os.join_step path b = pre +:+ b.
Proof.
  unfold os.join_step. destruct (PyStr.startswith b os.sep).
  - by exists EmptyString.
  - destruct (_ || _).
    + by exists path.
    + exists (path +:+ String os.sep EmptyString). apply append_cons.
Qed.

Lemma entry_path_suffix (tmp_dir : string) (scopes : list string) (n : string) :
  exists pre, entry_path self tmp_dir scopes n = pre +:+ n +:+ ext self.
Proof.
  unfold entry_path, os.path_join. rewrite fold_left_app. cbn [fold_left].
  apply join_step_suffix.
Qed.

(** ** The lines of an entry *)

Lemma report_lines (scopes : list string) (mat_name : string)
    (diff : list float) (d : float) (mn mx av md sd : piece) (w : world) :
  let text := [Str (PyStr.repeat "    " (length scopes) +:+ mat_name +:+ ": d=");
               Num d] in
  let more := [Str ", min="; mn; Str ", max="; mx; Str ", avg="; av;
               Str ", median="; md; Str ", std="; sd] in
  if PrimFloat.ltb d 0.001 then
    report self tmp_dir1 scopes mat_name diff d mn mx av md sd w
    = (Ok (), printed w (Line (Some green) text))
  else
    exists e w',
      report self tmp_dir1 scopes mat_name diff d mn mx av md sd w
      = (Raise e, w')
      /\ stdout w'
         = stdout w
           ++ [Line (Some (if PrimFloat.ltb d 10 then yellow else red))
                 (text ++ more)].
Proof.
  intros text more. unfold report. fold text. fold more.
  destruct (PrimFloat.ltb d 0.001); [reflexivity|].
  rewrite bind_unfold.
  destruct (PrimFloat.ltb d 10); cbn [print];
    match goal with
    | |- context [save_diff _ _ ?s ?n ?x ?w0] =>
        destruct (save_diff_raises s n x w0) as (e & w' & -> & _ & Ho & _)
    end;
    exists e, w'; (split; [reflexivity|]); rewrite Ho; reflexivity.
Qed.

(** The branch of [SAVE_MAT] never raises, and prints the lines of an
    entry. *)
Lemma save_mat_lines (scopes : list string) (name : string) (w : world) :
  exists w' ls,
    save_mat self tmp_dir1 tmp_dir2 scopes name w = (Ok (), w')
    /\ stdout w' = stdout w ++ ls
    /\ lines_of_entry (ext self) tmp_dir1 tmp_dir2 scopes name ls.
Proof.
  set (p1 := entry_path self tmp_dir1 scopes name).
  set (p2 := entry_path self tmp_dir2 scopes name).
  assert (Herr : forall e ps, exists w' ls,
    (Ok (), printed (loading w ps) (error_line self scopes name e))
    = (Ok (), w')
    /\ stdout w' = stdout w ++ ls
    /\ lines_of_entry (ext self) tmp_dir1 tmp_dir2 scopes name ls).
  { intros e ps. do 2 eexists. split; [reflexivity|].
    split; [reflexivity|]. right. left. by exists e. }
  destruct (decide (p1 ∈ dom (files w))) as [I1|I1];
    [destruct (decide (p2 ∈ dom (files w))) as [I2|I2]|].
  2,3: rewrite save_mat_missing by (subst p1 p2; tauto);
       do 2 eexists; (split; [reflexivity|]); (split; [reflexivity|]);
       by left.
  rewrite save_mat_present by assumption. fold p1 p2.
  destruct (flat_array (files w !! p1)) as [m1|e1] eqn:H1.
  2:{ rewrite (compare_entry_first_fails scopes name p1 p2 e1 w H1).
      apply Herr. }
  destruct (flat_array (files w !! p2)) as [m2|e2] eqn:H2.
  2:{ rewrite (compare_entry_second_fails scopes name p1 p2 m1 e2 w H1 H2).
      apply Herr. }
  rewrite (compare_entry_arrays scopes name p1 p2 m1 m2 w H1 H2).
  destruct (np.subtract m2 m1) as [delta|e]; [|apply Herr].
  destruct (np.abs delta) as [|x diff] eqn:E; [apply Herr|].
  cbv beta iota zeta.
  match goal with
  | |- context [report _ _ ?s ?n ?df ?d ?a ?b ?c ?e ?f ?w0] =>
      pose proof (report_lines s n df d a b c e f w0) as Hr;
      set (dist := d) in *
  end.
  cbv zeta in Hr.
  destruct (PrimFloat.ltb dist 0.001) eqn:E1.
  - rewrite Hr. do 2 eexists. split; [reflexivity|].
    split; [reflexivity|]. right. right. exists dist, (x :: diff).
    cbv zeta. by rewrite E1.
  - destruct Hr as (e & w' & -> & Ho).
    do 2 eexists. split; [reflexivity|]. split.
    + cbn [printed stdout]. rewrite Ho. cbn [loading stdout].
      rewrite <- app_assoc. reflexivity.
    + right. right. exists dist, (x :: diff). cbv zeta. rewrite E1.
      by exists e.
Qed.

(** The lines of a replay that completes, action by action. *)
Lemma replay_lines (actions : list action) (scopes scopes' : list string)
    (w w' : world) :
  replay self tmp_dir1 tmp_dir2 actions scopes w = (Ok scopes', w') ->
  exists chunks : list (list line),
    lines_of_flow (ext self) tmp_dir1 tmp_dir2 scopes actions chunks
    /\ stdout w' = stdout w ++ concat chunks.
Proof.
  revert scopes w. induction actions as [|a rest IH]; intros scopes w.
  - cbn [replay]. rewrite ret_unfold. intros [= _ <-].
    exists []. split; [constructor|]. cbn. by rewrite app_nil_r.
  - rewrite replay_cons. unfold step. repeat case_bool_decide.
    + unfold action_name. destruct (aname a) as [n|] eqn:En;
        rewrite bind_unfold; [|discriminate].
      cbn [raise mret io_ret]. rewrite bind_unfold. cbn [print].
      rewrite ret_unfold.
      intros Hrun; apply IH in Hrun as (chunks & HF & Hout).
      eexists (_ :: chunks). split; [by eapply lines_enter|].
      rewrite Hout. cbn. rewrite <- app_assoc. reflexivity.
    + unfold scopes_pop. destruct scopes as [|s0 more]; [discriminate|].
      rewrite ret_unfold.
      intros Hrun; apply IH in Hrun as (chunks & HF & Hout).
      exists ([] :: chunks). split; [by apply lines_exit|exact Hout].
    + unfold action_name. destruct (aname a) as [n|] eqn:En;
        rewrite bind_unfold; [|discriminate].
      cbn [raise mret io_ret]. rewrite bind_unfold.
      destruct (save_mat_lines scopes n w) as (w1 & ls & -> & Ho & Hls).
      rewrite ret_unfold.
      intros Hrun; apply IH in Hrun as (chunks & HF & Hout).
      exists (ls :: chunks). split; [by eapply lines_save|].
      rewrite Hout, Ho. cbn. rewrite <- app_assoc. reflexivity.
    + discriminate.
Qed.

End ReplayFacts.

(** * The properties of the specification *)

(** ** The parser produces well-formed actions *)

Lemma action_of_spec_well_formed (a : Action_spec) :
  well_formed (action_of_spec a).
Proof.
  destruct a; [right|left|right]; cbn; try reflexivity; split; eauto.
Qed.

Lemma MatList_init_well_formed (text : string) :
  Forall well_formed (flow (MatList_init text)).
Proof.
  unfold MatList_init. cbn [flow]. rewrite init_flow_spec, app_nil_l.
  induction (map spec_action_of_line _) as [|x xs IH]; constructor;
    [apply action_of_spec_well_formed|exact IH].
Qed.

(** C10. Every action that the constructor builds has one of the three
    types [ENTER_SCOPE], [EXIT_SCOPE] and [SAVE_MAT], and the replay of a
    parsed manifest never raises the exception of the unknown action type,
    whatever the directories hold. *)
Theorem C10_unknown_action_unreachable (text : string) :
  Forall (fun a => atype a = ENTER_SCOPE \/ atype a = EXIT_SCOPE
                   \/ atype a = SAVE_MAT)
         (flow (MatList_init text))
  /\ (forall (tmp_dir1 tmp_dir2 : string) (w : world),
        fst (compare (MatList_init text) tmp_dir1 tmp_dir2 w)
        <> Raise Exception_unknown_action_type).
Proof.
  split.
  - eapply Forall_impl; [apply MatList_init_well_formed|].
    intros a [H|[[H|H] _]]; auto.
  - intros tmp_dir1 tmp_dir2 w. rewrite compare_unfold.
    destruct (replay_well_formed (MatList_init text) tmp_dir1 tmp_dir2
                (flow (MatList_init text)) [] w
                (MatList_init_well_formed text)) as [[s H]|H];
      destruct (replay _ _ _ _ _ _) as [[s'|e] w']; cbn [fst] in *;
      congruence.
Qed.

(** ** Scope underflow *)

(** C4. A manifest of well-formed actions in which no prefix has more
    [EXIT_SCOPE] than [ENTER_SCOPE] actions is replayed to the end: [compare]
    returns without an exception. When an [EXIT_SCOPE] action comes after a
    prefix that leaves the stack empty, [compare] raises the [IndexError] of
    [scopes.pop()], in the world that the prefix left: nothing catches it and
    the actions after it are not replayed. *)
Theorem C4_balanced_completes_underflow_raises
    (self : MatList) (tmp_dir1 tmp_dir2 : string) (w : world) :
  (Forall well_formed (flow self) -> balanced (flow self) ->
   exists w', compare self tmp_dir1 tmp_dir2 w = (Ok (), w'))
  /\ (forall (pre : list action) (x : action) (post : list action),
        flow self = pre ++ x :: post -> atype x = EXIT_SCOPE ->
        Forall well_formed pre -> balanced pre ->
        count_type EXIT_SCOPE pre = count_type ENTER_SCOPE pre ->
        exists w',
          replay self tmp_dir1 tmp_dir2 pre [] w = (Ok [], w')
          /\ compare self tmp_dir1 tmp_dir2 w
             = (Raise IndexError_pop_from_empty_list, w')).
Proof.
  split.
  - intros Hwf Hb. rewrite compare_unfold.
    destruct (replay_balanced self tmp_dir1 tmp_dir2 (flow self) [] w Hwf Hb)
      as (s' & w' & -> & _).
    by exists w'.
  - intros pre x post Hflow Hx Hwf Hb Hcount.
    destruct (replay_balanced self tmp_dir1 tmp_dir2 pre [] w Hwf Hb)
      as (s' & w' & Hpre & Hlen).
    assert (s' = []) as -> by (destruct s'; [done|cbn [length] in Hlen; lia]).
    exists w'. split; [exact Hpre|].
    rewrite compare_unfold, Hflow, replay_app, Hpre, replay_cons.
    destruct (step_outcome_intro self tmp_dir1 tmp_dir2 [] x w')
      as [n Ht Hn|Ht Hs|Ht Hs|n w1 ls Ht Hn _ _|Ht Hn|H0 H2 H3];
      try reflexivity; try done; exfalso; count_cases.
Qed.

Lemma C4_witness :
  (exists w',
     compare (MatList_init Scenario.lists_txt) "A" "B" Scenario.mismatch_b
     = (Ok (), w'))
  /\ (exists w',
        replay Scenario.underflow "A" "B" [] [] Scenario.mismatch_b = (Ok [], w')
        /\ compare Scenario.underflow "A" "B" Scenario.mismatch_b
           = (Raise IndexError_pop_from_empty_list, w')).
Proof.
  split.
  - apply (proj1 (C4_balanced_completes_underflow_raises
                    (MatList_init Scenario.lists_txt) "A" "B"
                    Scenario.mismatch_b)).
    + apply MatList_init_well_formed.
    + intros [|[|[|[|[|n]]]]]; vm_compute; lia.
  - apply (proj2 (C4_balanced_completes_underflow_raises
                    Scenario.underflow "A" "B" Scenario.mismatch_b)
             [] (Action EXIT_SCOPE None) [Action SAVE_MAT (Some "a")]).
    + reflexivity.
    + reflexivity.
    + constructor.
    + intros n. rewrite take_nil. cbn. lia.
    + reflexivity.
Defined.

(** ** The paths of an entry *)

(** C6. After a prefix of well-formed, balanced actions, a [SAVE_MAT]
    action named [name] tests and loads the two paths
    [join(tmp_dir, scopes..., name + ext)], one for each root, where [scopes]
    is the scope stack that the prefix leaves: when one of them is no file
    the line printed names both, and when both are files they are the ones
    compared. Each path ends with the name immediately followed by the
    extension. *)
Theorem C6_entry_paths (self : MatList) (tmp_dir1 tmp_dir2 : string)
    (pre : list action) (name : string) (rest : list action) (w : world) :
  Forall well_formed pre -> balanced pre ->
  let scopes := scope_stack pre [] in
  let path1 := os.path_join tmp_dir1 (scopes ++ [name +:+ ext self]) in
  let path2 := os.path_join tmp_dir2 (scopes ++ [name +:+ ext self]) in
  exists w1,
    replay self tmp_dir1 tmp_dir2 pre [] w = (Ok scopes, w1)
    /\ replay self tmp_dir1 tmp_dir2
         (pre ++ Action SAVE_MAT (Some name) :: rest) [] w
       = (if bool_decide (path1 ∈ dom (files w1))
             && bool_decide (path2 ∈ dom (files w1))
          then match compare_entry self tmp_dir1 scopes name path1 path2 w1 with
               | (Ok _, w2) => replay self tmp_dir1 tmp_dir2 rest scopes w2
               | (Raise e, w2) =>
                   replay self tmp_dir1 tmp_dir2 rest scopes
                     (printed w2 (error_line self scopes name e))
               end
          else replay self tmp_dir1 tmp_dir2 rest scopes
                 (printed w1 (missing_line path1 path2)))
    /\ (exists dir1 dir2,
          path1 = dir1 +:+ name +:+ ext self
          /\ path2 = dir2 +:+ name +:+ ext self).
Proof.
  intros Hwf Hb scopes path1 path2.
  destruct (replay_balanced self tmp_dir1 tmp_dir2 pre [] w Hwf Hb)
    as (s' & w1 & Hpre & _).
  pose proof (replay_scope_stack _ _ _ _ _ _ _ _ Hpre) as Hs.
  fold scopes in Hs. subst s'.
  exists w1. split; [exact Hpre|]. split.
  - rewrite replay_app, Hpre, replay_cons, step_save.
    fold (entry_path self tmp_dir1 scopes name) in path1.
    fold (entry_path self tmp_dir2 scopes name) in path2.
    destruct (bool_decide (path1 ∈ dom (files w1))) eqn:E1;
      [destruct (bool_decide (path2 ∈ dom (files w1))) eqn:E2|];
      cbn [andb].
    + apply bool_decide_eq_true in E1, E2.
      rewrite save_mat_present by assumption.
      fold path1 path2.
      by destruct (compare_entry self tmp_dir1 scopes name path1 path2 w1)
        as [[[]|e] w2].
    + apply bool_decide_eq_false in E2.
      rewrite save_mat_missing by (by right). reflexivity.
    + apply bool_decide_eq_false in E1.
      rewrite save_mat_missing by (by left). reflexivity.
  - destruct (entry_path_suffix self tmp_dir1 scopes name) as [dir1 H1].
    destruct (entry_path_suffix self tmp_dir2 scopes name) as [dir2 H2].
    by exists dir1, dir2.
Qed.

Lemma C6_witness :
  let self := MatList_init Scenario.lists_txt in
  let pre := [Action SAVE_MAT (Some "a"); Action ENTER_SCOPE (Some "g")] in
  let rest := [Action EXIT_SCOPE None] in
  let w := Scenario.missing_b in
  let scopes := scope_stack pre [] in
  let path1 := os.path_join "A" (scopes ++ ["b" +:+ ext self]) in
  let path2 := os.path_join "B" (scopes ++ ["b" +:+ ext self]) in
  (flow self = pre ++ Action SAVE_MAT (Some "b") :: rest
   /\ path1 = "A/g/b.yml" /\ path2 = "B/g/b.yml")
  /\ exists w1,
       replay self "A" "B" pre [] w = (Ok scopes, w1)
       /\ replay self "A" "B" (pre ++ Action SAVE_MAT (Some "b") :: rest) [] w
          = (if bool_decide (path1 ∈ dom (files w1))
                && bool_decide (path2 ∈ dom (files w1))
             then match compare_entry self "A" scopes "b" path1 path2 w1 with
                  | (Ok _, w2) => replay self "A" "B" rest scopes w2
                  | (Raise e, w2) =>
                      replay self "A" "B" rest scopes
                        (printed w2 (error_line self scopes "b" e))
                  end
             else replay self "A" "B" rest scopes
                    (printed w1 (missing_line path1 path2)))
       /\ (exists dir1 dir2,
             path1 = dir1 +:+ "b" +:+ ext self
             /\ path2 = dir2 +:+ "b" +:+ ext self).
Proof.
  intros self pre rest w. split; [by vm_compute|].
  apply (C6_entry_paths self "A" "B" pre "b" rest w).
  - constructor; [right; split; [by right|by eexists]|].
    constructor; [right; split; [by left|by eexists]|]. constructor.
  - intros [|[|[|n]]]; vm_compute; lia.
Defined.

(** ** Missing files *)

(** C7. When one of the two paths of a [SAVE_MAT] action is no file, the
    step prints the one line
    [Cannot find file matrices: "<path1>" or "<path2>"], where the paths are
    [join(root, scopes..., name + ext)] for the two roots, and returns
    normally with the same scopes: the files are untouched, nothing is
    handed to [load_mat], and the replay goes on with the next action. *)
Theorem C7_missing_file (self : MatList) (tmp_dir1 tmp_dir2 : string)
    (scopes : list string) (name : string) (rest : list action) (w : world) :
  let path1 := os.path_join tmp_dir1 (scopes ++ [name +:+ ext self]) in
  let path2 := os.path_join tmp_dir2 (scopes ++ [name +:+ ext self]) in
  path1 ∉ dom (files w) \/ path2 ∉ dom (files w) ->
  let w' := World (files w) (dirs w)
              (stdout w
               ++ [Line None
                     [Str ("Cannot find file matrices: " +:+ dq); Str path1;
                      Str (dq +:+ " or " +:+ dq); Str path2; Str dq]])
              (loaded w) in
  step self tmp_dir1 tmp_dir2 scopes (Action SAVE_MAT (Some name)) w
  = (Ok scopes, w')
  /\ replay self tmp_dir1 tmp_dir2 (Action SAVE_MAT (Some name) :: rest) scopes w
     = replay self tmp_dir1 tmp_dir2 rest scopes w'.
Proof.
  intros path1 path2 H w'.
  assert (Hstep : step self tmp_dir1 tmp_dir2 scopes
                    (Action SAVE_MAT (Some name)) w = (Ok scopes, w')).
  { rewrite step_save, save_mat_missing by exact H. reflexivity. }
  split; [exact Hstep|]. rewrite replay_cons, Hstep. reflexivity.
Qed.

Lemma C7_witness :
  let self := MatList_init Scenario.lists_txt in
  let w := Scenario.missing_b in
  let w' := World (files w) (dirs w)
              (stdout w
               ++ [Line None
                     [Str ("Cannot find file matrices: " +:+ dq);
                      Str "A/g/b.yml"; Str (dq +:+ " or " +:+ dq);
                      Str "B/g/b.yml"; Str dq]])
              (loaded w) in
  step self "A" "B" ["g"] (Action SAVE_MAT (Some "b")) w = (Ok ["g"], w')
  /\ replay self "A" "B"
       [Action SAVE_MAT (Some "b"); Action EXIT_SCOPE None] ["g"] w
     = replay self "A" "B" [Action EXIT_SCOPE None] ["g"] w'.
Proof.
  intros self w.
  apply (C7_missing_file self "A" "B" ["g"] "b" [Action EXIT_SCOPE None] w).
  right. intros H. apply elem_of_dom in H. destruct H as [f Hf].
  vm_compute in Hf. discriminate Hf.
Defined.

(** ** The lines of a run *)

(** C8 (amended). A replay that completes has printed, in the order of the
    actions: for every [ENTER_SCOPE] action exactly its scope line, four
    spaces for every scope open at that moment, then the name and a slash;
    nothing for an [EXIT_SCOPE] action; and for every [SAVE_MAT] action
    either the missing-file line naming both candidate paths, or the
    comparison-error line naming the entry's relative path, or a result
    line with the name and the distance, which when it is not green is
    followed by the error line of the write that failed. *)
Theorem C8_lines_per_action (self : MatList) (tmp_dir1 tmp_dir2 : string)
    (w w' : world) :
  compare self tmp_dir1 tmp_dir2 w = (Ok (), w') ->
  exists chunks : list (list line),
    lines_of_flow (ext self) tmp_dir1 tmp_dir2 [] (flow self) chunks
    /\ stdout w' = stdout w ++ concat chunks.
Proof.
  rewrite compare_unfold.
  destruct (replay self tmp_dir1 tmp_dir2 (flow self) [] w)
    as [[s|e] w1] eqn:E; [|discriminate].
  intros [= <-]. eapply replay_lines. exact E.
Qed.

(** The manifest of the specification's scenarios, with [g/b.yml] of
    mismatched sizes: a result line, a scope line, an error line and
    nothing for the scope that is left. *)
Lemma C8_witness :
  let self := MatList_init Scenario.lists_txt in
  let w := Scenario.mismatch_b in
  exists chunks : list (list line),
    lines_of_flow ".yml" "A" "B" []
      [Action SAVE_MAT (Some "a"); Action ENTER_SCOPE (Some "g");
       Action SAVE_MAT (Some "b"); Action EXIT_SCOPE None] chunks
    /\ stdout (snd (compare self "A" "B" w)) = stdout w ++ concat chunks.
Proof.
  intros self w.
  apply (C8_lines_per_action self "A" "B" w (snd (compare self "A" "B" w))).
  vm_compute. reflexivity.
Defined.

(** The claim as the specification states it fails on a manifest that
    enters a scope and leaves it: the replay completes with one line
    printed for its two actions, none of them for the [EXIT_SCOPE]. *)
Lemma C8_counterexample_exit_prints_nothing :
  compare Scenario.one_scope "A" "B" (Scenario.world_of ∅)
  = (Ok (), World ∅ ∅ [scope_line [] "g"] [])
  /\ length (flow Scenario.one_scope) = 2%nat
  /\ step Scenario.one_scope "A" "B" ["g"] (Action EXIT_SCOPE None)
       (World ∅ ∅ [scope_line [] "g"] [])
     = (Ok [], World ∅ ∅ [scope_line [] "g"] []).
Proof. vm_compute. repeat split. Qed.

(** ** The difference artifact *)

(** Whatever the manifest and the directories, [compare] leaves the files
    as they were: the difference is never written. *)
Lemma compare_writes_no_file (self : MatList) (tmp_dir1 tmp_dir2 : string)
    (w : world) :
  files (snd (compare self tmp_dir1 tmp_dir2 w)) = files w.
Proof.
  rewrite compare_unfold.
  pose proof (replay_files self tmp_dir1 tmp_dir2 (flow self) [] w) as H.
  by destruct (replay self tmp_dir1 tmp_dir2 (flow self) [] w) as [[s|e] w'].
Qed.

(** C1 (the code at the failing input). [a.yml] holds [0, 0] in [A] and
    [5, 5] in [B]: the distance is 10, the red line is printed, the
    directory [A/diff] is made, and then the tuple that line 132 builds is
    refused as a file name; the exception is reported by the handler and no
    file [A/diff/a.yml] exists afterwards. *)
Theorem C1_difference_is_not_written :
  let w := Scenario.pair_a [[0; 0]%float] [[5; 5]%float] in
  let r := compare Scenario.one_entry "A" "B" w in
  let diff := [5; 5]%float in
  fst r = Ok ()
  /\ stdout (snd r)
     = [Line (Some red)
          [Str "a: d="; Num 10; Str ", min="; StatOf np_min diff;
           Str ", max="; StatOf np_max diff; Str ", avg="; StatOf np_average diff;
           Str ", median="; StatOf np_median diff; Str ", std="; StatOf np_std diff];
        error_line Scenario.one_entry [] "a" cv2_error_filename]
  /\ dirs (snd r) = {[ "A/diff"; "A" ]}
  /\ files (snd r) !! "A/diff/a.yml" = None
  /\ files (snd r) = files w.
Proof. vm_compute. repeat split. Qed.

(** ** Classification *)

Lemma classified_colour (d : float) (c : classification) :
  classified d c ->
  (if PrimFloat.ltb d 0.001 then green
   else if PrimFloat.ltb d 10 then yellow else red) = colour_of c.
Proof.
  intros [H|H1 H2|H].
  - by rewrite H.
  - by rewrite (FloatFacts.leb_not_ltb _ _ H1), H2.
  - by rewrite (FloatFacts.ten_leb_not_ltb_milli _ H),
               (FloatFacts.leb_not_ltb _ _ H).
Qed.

(** What [report] does, for any distance: one line, green below 0.001,
    yellow below 10.0 and red otherwise, with the statistics unless it is
    green; below 0.001 nothing else happens, and otherwise the exception of
    the write is raised after the directory was made. No file changes. *)
Lemma report_line (self : MatList) (tmp_dir1 : string) (scopes : list string)
    (mat_name : string) (diff : list float) (d : float)
    (mn mx av md sd : piece) (w : world) :
  let text := [Str (PyStr.repeat "    " (length scopes) +:+ mat_name +:+ ": d=");
               Num d] in
  let more := [Str ", min="; mn; Str ", max="; mx; Str ", avg="; av;
               Str ", median="; md; Str ", std="; sd] in
  exists r w',
    report self tmp_dir1 scopes mat_name diff d mn mx av md sd w = (r, w')
    /\ files w' = files w
    /\ loaded w' = loaded w
    /\ stdout w'
       = stdout w
         ++ [if PrimFloat.ltb d 0.001 then Line (Some green) text
             else Line (Some (if PrimFloat.ltb d 10 then yellow else red))
                       (text ++ more)]
    /\ (PrimFloat.ltb d 0.001 = true -> r = Ok () /\ dirs w' = dirs w)
    /\ (PrimFloat.ltb d 0.001 = false -> exists e, r = Raise e).
Proof.
  intros text more. unfold report. fold text. fold more.
  destruct (PrimFloat.ltb d 0.001) eqn:E1.
  - do 2 eexists. split; [reflexivity|]. cbn. repeat split; discriminate.
  - rewrite bind_unfold.
    destruct (PrimFloat.ltb d 10) eqn:E2; cbn [print];
      match goal with
      | |- context [save_diff _ _ ?s ?n ?x ?w0] =>
          destruct (save_diff_raises self tmp_dir1 s n x w0)
            as (e & w' & -> & Hf & Ho & Hl)
      end;
      exists (Raise e), w'; (split; [reflexivity|]);
      rewrite Hf, Ho, Hl; cbn; repeat split; try discriminate; by exists e.
Qed.

(** C2. The line of an entry is classified by its distance alone, with
    strict comparisons: for every distance [d] that lines 115 to 126
    receive, the line printed is green (Identical) when [d < 0.001], yellow
    (Minor) when [0.001 <= d < 10.0] and red (Major) when [10.0 <= d]; it
    shows the name of the entry and [d], and the five statistics unless it
    is green. Every entry whose two matrices load and subtract reaches
    these lines with some distance [d], the absolute difference as the
    array and its five statistics. *)
Theorem C2_classification (self : MatList) (tmp_dir1 : string)
    (scopes : list string) (name : string) :
  (forall (diff : list float) (d : float) (mn mx av md sd : piece) (w : world)
          (c : classification),
     classified d c ->
     exists r w',
       report self tmp_dir1 scopes name diff d mn mx av md sd w = (r, w')
       /\ stdout w'
          = stdout w
            ++ [Line (Some (colour_of c))
                  ([Str (PyStr.repeat "    " (length scopes) +:+ name +:+ ": d=");
                    Num d]
                   ++ match c with
                      | Identical => []
                      | _ => [Str ", min="; mn; Str ", max="; mx;
                              Str ", avg="; av; Str ", median="; md;
                              Str ", std="; sd]
                      end)])
  /\ (forall (path1 path2 : string) (rows1 rows2 : list (list float))
             (delta : list float) (w : world),
        files w !! path1 = Some (MatFile rows1) -> np.flatten rows1 <> [] ->
        files w !! path2 = Some (MatFile rows2) -> np.flatten rows2 <> [] ->
        np.subtract (np.flatten rows2) (np.flatten rows1) = Ok delta ->
        exists d,
          compare_entry self tmp_dir1 scopes name path1 path2 w
          = report self tmp_dir1 scopes name (np.abs delta) d
              (StatOf np_min (np.abs delta)) (StatOf np_max (np.abs delta))
              (StatOf np_average (np.abs delta))
              (StatOf np_median (np.abs delta))
              (StatOf np_std (np.abs delta)) (loading w [path1; path2])).
Proof.
  split.
  - intros diff d mn mx av md sd w c Hc.
    destruct (report_line self tmp_dir1 scopes name diff d mn mx av md sd w)
      as (r & w' & Hr & _ & _ & Ho & _).
    exists r, w'. split; [exact Hr|]. rewrite Ho. do 2 f_equal.
    pose proof (classified_colour d c Hc) as Hcol.
    destruct Hc as [H|H1 H2|H].
    + by rewrite H, app_nil_r.
    + by rewrite (FloatFacts.leb_not_ltb _ _ H1), H2.
    + by rewrite (FloatFacts.ten_leb_not_ltb_milli _ H),
                 (FloatFacts.leb_not_ltb _ _ H).
  - intros path1 path2 rows1 rows2 delta w H1 N1 H2 N2 Hsub.
    exists (np.linalg_norm1 (np.abs delta)).
    rewrite (compare_entry_loaded self tmp_dir1 scopes name path1 path2
               rows1 rows2 w H1 N1 H2 N2), Hsub.
    pose proof (FloatFacts.subtract_nonempty _ _ _ N2 N1 Hsub) as Hne.
    destruct (np.abs delta) as [|x diff] eqn:E; [by destruct delta|].
    reflexivity.
Qed.

(** The two boundaries: a distance of exactly 0.001 is Minor, and a
    distance of exactly 10.0 is Major; and the entry of the specification's
    third scenario reaches the classification. *)
Lemma C2_witness :
  (exists r w',
     report Scenario.one_entry "A" [] "a" [0.001%float] 0.001%float
       (StatOf np_min [0.001%float]) (StatOf np_max [0.001%float])
       (StatOf np_average [0.001%float]) (StatOf np_median [0.001%float])
       (StatOf np_std [0.001%float]) (Scenario.world_of ∅) = (r, w')
     /\ stdout w'
        = [] ++ [Line (Some yellow)
                   ([Str "a: d="; Num 0.001]
                    ++ [Str ", min="; StatOf np_min [0.001%float];
                        Str ", max="; StatOf np_max [0.001%float];
                        Str ", avg="; StatOf np_average [0.001%float];
                        Str ", median="; StatOf np_median [0.001%float];
                        Str ", std="; StatOf np_std [0.001%float]])])
  /\ (exists r w',
        report Scenario.one_entry "A" [] "a" [5; 5]%float 10%float
          (StatOf np_min [5; 5]%float) (StatOf np_max [5; 5]%float)
          (StatOf np_average [5; 5]%float) (StatOf np_median [5; 5]%float)
          (StatOf np_std [5; 5]%float) (Scenario.world_of ∅) = (r, w')
        /\ stdout w'
           = [] ++ [Line (Some red)
                      ([Str "a: d="; Num 10]
                       ++ [Str ", min="; StatOf np_min [5; 5]%float;
                           Str ", max="; StatOf np_max [5; 5]%float;
                           Str ", avg="; StatOf np_average [5; 5]%float;
                           Str ", median="; StatOf np_median [5; 5]%float;
                           Str ", std="; StatOf np_std [5; 5]%float])])
  /\ (exists d,
        compare_entry Scenario.one_entry "A" [] "a" "A/a.yml" "B/a.yml"
          (Scenario.pair_a [[0; 0]%float] [[5; 5]%float])
        = report Scenario.one_entry "A" [] "a"
            (np.abs [PrimFloat.sub 5 0; PrimFloat.sub 5 0]) d
            (StatOf np_min (np.abs [PrimFloat.sub 5 0; PrimFloat.sub 5 0]))
            (StatOf np_max (np.abs [PrimFloat.sub 5 0; PrimFloat.sub 5 0]))
            (StatOf np_average (np.abs [PrimFloat.sub 5 0; PrimFloat.sub 5 0]))
            (StatOf np_median (np.abs [PrimFloat.sub 5 0; PrimFloat.sub 5 0]))
            (StatOf np_std (np.abs [PrimFloat.sub 5 0; PrimFloat.sub 5 0]))
            (loading (Scenario.pair_a [[0; 0]%float] [[5; 5]%float])
               ["A/a.yml"; "B/a.yml"])).
Proof.
  split; [|split].
  - apply (proj1 (C2_classification Scenario.one_entry "A" [] "a")
             [0.001%float] 0.001%float _ _ _ _ _ (Scenario.world_of ∅) Minor).
    apply classified_minor; by vm_compute.
  - apply (proj1 (C2_classification Scenario.one_entry "A" [] "a")
             [5; 5]%float 10%float _ _ _ _ _ (Scenario.world_of ∅) Major).
    apply classified_major; by vm_compute.
  - apply (proj2 (C2_classification Scenario.one_entry "A" [] "a")
             "A/a.yml" "B/a.yml" [[0; 0]%float] [[5; 5]%float]
             [PrimFloat.sub 5 0; PrimFloat.sub 5 0]
             (Scenario.pair_a [[0; 0]%float] [[5; 5]%float])).
    + by vm_compute.
    + discriminate.
    + by vm_compute.
    + discriminate.
    + reflexivity.
Defined.

(** ** Mismatched element counts *)

(** C3 (amended). When the two files of an entry hold matrices whose
    numbers of elements differ, neither of them being 1, the step prints
    one line, [Error when comparing "<relative path>": "<exception>".],
    where the relative path is [join(scopes..., name + ext)]; it writes no
    file, returns normally with the same scopes, and the replay goes on
    with the next action. The exception is the [ValueError] of the
    subtraction when both matrices have elements; a matrix without element
    is loaded as [None], and [flatten] then raises an [AttributeError]
    (before the second file is loaded when it is the first). *)
Theorem C3_mismatch_is_reported (self : MatList) (tmp_dir1 tmp_dir2 : string)
    (scopes : list string) (name : string) (rows1 rows2 : list (list float))
    (rest : list action) (w : world) :
  let path1 := os.path_join tmp_dir1 (scopes ++ [name +:+ ext self]) in
  let path2 := os.path_join tmp_dir2 (scopes ++ [name +:+ ext self]) in
  let n1 := length (np.flatten rows1) in
  let n2 := length (np.flatten rows2) in
  files w !! path1 = Some (MatFile rows1) ->
  files w !! path2 = Some (MatFile rows2) ->
  n1 <> n2 -> n1 <> 1%nat -> n2 <> 1%nat ->
  let e := if (n1 =? 0)%nat then AttributeError_None_flatten
           else if (n2 =? 0)%nat then AttributeError_None_flatten
           else ValueError_broadcast n2 n1 in
  let w' := World (files w) (dirs w)
              (stdout w
               ++ [Line None
                     [Str ("Error when comparing " +:+ dq);
                      Str (os.path_join_args (scopes ++ [name +:+ ext self]));
                      Str (dq +:+ ": " +:+ dq); ExnText e; Str (dq +:+ ".")]])
              (loaded w ++ (if (n1 =? 0)%nat then [path1] else [path1; path2])) in
  step self tmp_dir1 tmp_dir2 scopes (Action SAVE_MAT (Some name)) w
  = (Ok scopes, w')
  /\ replay self tmp_dir1 tmp_dir2 (Action SAVE_MAT (Some name) :: rest) scopes w
     = replay self tmp_dir1 tmp_dir2 rest scopes w'.
Proof.
  intros path1 path2 n1 n2 H1 H2 Hne Hn1 Hn2 e w'.
  assert (Hstep : step self tmp_dir1 tmp_dir2 scopes
                    (Action SAVE_MAT (Some name)) w = (Ok scopes, w')).
  { rewrite step_save, save_mat_present by (eapply lookup_in_dom; eassumption).
    fold (entry_path self tmp_dir1 scopes name).
    fold (entry_path self tmp_dir2 scopes name).
    change (entry_path self tmp_dir1 scopes name) with path1.
    change (entry_path self tmp_dir2 scopes name) with path2.
    subst e w'. subst n1 n2.
    destruct (np.flatten rows1) as [|x1 m1] eqn:E1.
    { rewrite (compare_entry_first_fails self tmp_dir1 scopes name path1 path2
                 AttributeError_None_flatten)
        by (unfold flat_array; by rewrite H1, E1).
      reflexivity. }
    destruct (np.flatten rows2) as [|x2 m2] eqn:E2.
    { rewrite (compare_entry_second_fails self tmp_dir1 scopes name path1 path2
                 (x1 :: m1) AttributeError_None_flatten)
        by (unfold flat_array; by rewrite ?H1, ?E1, ?H2, ?E2).
      reflexivity. }
    rewrite (compare_entry_loaded self tmp_dir1 scopes name path1 path2
               rows1 rows2 w H1 ltac:(by rewrite E1) H2 ltac:(by rewrite E2)).
    rewrite E1, E2.
    rewrite FloatFacts.subtract_mismatch by (cbn [length] in *; congruence).
    reflexivity. }
  split; [exact Hstep|]. rewrite replay_cons, Hstep. reflexivity.
Qed.

(** The specification's scenario: [g/b.yml] holds [1, 2] in [A] and
    [1, 2, 3] in [B]. *)
Lemma C3_witness :
  let self := MatList_init Scenario.lists_txt in
  let w := Scenario.mismatch_b in
  let w' := World (files w) (dirs w)
              (stdout w
               ++ [Line None
                     [Str ("Error when comparing " +:+ dq); Str "g/b.yml";
                      Str (dq +:+ ": " +:+ dq);
                      ExnText (ValueError_broadcast 3 2); Str (dq +:+ ".")]])
              (loaded w ++ ["A/g/b.yml"; "B/g/b.yml"]) in
  step self "A" "B" ["g"] (Action SAVE_MAT (Some "b")) w = (Ok ["g"], w')
  /\ replay self "A" "B"
       [Action SAVE_MAT (Some "b"); Action EXIT_SCOPE None] ["g"] w
     = replay self "A" "B" [Action EXIT_SCOPE None] ["g"] w'.
Proof.
  intros self w.
  apply (C3_mismatch_is_reported self "A" "B" ["g"] "b"
           [[1; 2]%float] [[1; 2; 3]%float] [Action EXIT_SCOPE None] w).
  - by vm_compute.
  - by vm_compute.
  - cbn. lia.
  - cbn. lia.
  - cbn. lia.
Defined.

(** The claim as the specification states it fails when one of the two
    arrays has a single element: numpy broadcasts it. [a.yml] holds [0] in
    [A] and [0, 0, 0] in [B]; one green line is printed, with the distance
    0, and no error line. *)
Lemma C3_counterexample_broadcast :
  let w := Scenario.pair_a [[0%float]] [[0; 0; 0]%float] in
  length (np.flatten [[0%float]]) = 1%nat
  /\ length (np.flatten [[0; 0; 0]%float]) = 3%nat
  /\ compare Scenario.one_entry "A" "B" w
     = (Ok (),
        World (files w) ∅
          [Line (Some green) [Str "a: d="; Num 0]]
          ["A/a.yml"; "B/a.yml"]).
Proof. vm_compute. repeat split. Qed.

(** ** Identical arrays *)

(** C9 (amended). When the two files of an entry hold the same matrix, with
    at least one element and every element finite, the L1 distance is 0,
    the green line of the class Identical is printed with that distance,
    no file is written, and the replay goes on with the next action. *)
Theorem C9_identical_arrays (self : MatList) (tmp_dir1 tmp_dir2 : string)
    (scopes : list string) (name : string) (rows : list (list float))
    (rest : list action) (w : world) :
  let path1 := entry_path self tmp_dir1 scopes name in
  let path2 := entry_path self tmp_dir2 scopes name in
  files w !! path1 = Some (MatFile rows) ->
  files w !! path2 = Some (MatFile rows) ->
  np.flatten rows <> [] ->
  Forall finite (np.flatten rows) ->
  let w' := World (files w) (dirs w)
              (stdout w
               ++ [Line (Some green)
                     [Str (PyStr.repeat "    " (length scopes) +:+ name +:+ ": d=");
                      Num 0]])
              (loaded w ++ [path1; path2]) in
  (exists delta,
     np.subtract (np.flatten rows) (np.flatten rows) = Ok delta
     /\ np.linalg_norm1 (np.abs delta) = 0%float)
  /\ step self tmp_dir1 tmp_dir2 scopes (Action SAVE_MAT (Some name)) w
     = (Ok scopes, w')
  /\ replay self tmp_dir1 tmp_dir2 (Action SAVE_MAT (Some name) :: rest) scopes w
     = replay self tmp_dir1 tmp_dir2 rest scopes w'.
Proof.
  intros path1 path2 H1 H2 Hne Hfin w'.
  pose proof (FloatFacts.subtract_same_length (np.flatten rows) (np.flatten rows)
                eq_refl) as Hsub.
  pose proof (FloatFacts.abs_sub_self _ Hfin) as Habs.
  pose proof (FloatFacts.norm1_zeros (length (np.flatten rows))) as Hnorm.
  assert (Hstep : step self tmp_dir1 tmp_dir2 scopes
                    (Action SAVE_MAT (Some name)) w = (Ok scopes, w')).
  { rewrite step_save, save_mat_present by (eapply lookup_in_dom; eassumption).
    fold path1 path2.
    rewrite (compare_entry_loaded self tmp_dir1 scopes name path1 path2
               rows rows w H1 Hne H2 Hne), Hsub, Habs.
    destruct (np.flatten rows) as [|x m]; [done|].
    cbn [length replicate] in *. rewrite Hnorm. reflexivity. }
  split; [|split; [exact Hstep|]].
  - eexists. split; [exact Hsub|]. by rewrite Habs.
  - rewrite replay_cons, Hstep. reflexivity.
Qed.

(** The specification's first scenario: [a.yml] holds [1, 2] on both
    sides. *)
Lemma C9_witness :
  let self := MatList_init Scenario.lists_txt in
  let w := Scenario.mismatch_b in
  let w' := World (files w) (dirs w)
              (stdout w ++ [Line (Some green) [Str "a: d="; Num 0]])
              (loaded w ++ ["A/a.yml"; "B/a.yml"]) in
  (exists delta,
     np.subtract [1; 2]%float [1; 2]%float = Ok delta
     /\ np.linalg_norm1 (np.abs delta) = 0%float)
  /\ step self "A" "B" [] (Action SAVE_MAT (Some "a")) w = (Ok [], w')
  /\ replay self "A" "B" [Action SAVE_MAT (Some "a")] [] w
     = replay self "A" "B" [] [] w'.
Proof.
  intros self w.
  apply (C9_identical_arrays self "A" "B" [] "a" [[1; 2]%float] [] w).
  - by vm_compute.
  - by vm_compute.
  - discriminate.
  - repeat constructor.
Defined.

(** The claim as the specification states it fails on an array that holds
    an infinity: [inf - inf] is a nan, so the distance of the array to
    itself is a nan, no comparison with it holds, and the entry is printed
    in red, the colour of the class Major; the difference is then on its
    way to be saved. *)
Lemma C9_counterexample_infinity :
  let w := Scenario.pair_a [[infinity]] [[infinity]] in
  let r := compare Scenario.one_entry "A" "B" w in
  np.linalg_norm1 (np.abs [PrimFloat.sub infinity infinity]) = nan
  /\ fst r = Ok ()
  /\ stdout (snd r)
     = [Line (Some red)
          [Str "a: d="; Num nan; Str ", min="; StatOf np_min [nan];
           Str ", max="; StatOf np_max [nan]; Str ", avg="; StatOf np_average [nan];
           Str ", median="; StatOf np_median [nan]; Str ", std="; StatOf np_std [nan]];
        error_line Scenario.one_entry [] "a" cv2_error_filename]
  /\ dirs (snd r) = {[ "A/diff"; "A" ]}.
Proof. vm_compute. repeat split. Qed.

(** * Further properties of the code *)

(** ** The constructor *)

Lemma readlines_cons (c : ascii) (s : string) :
  PyStr.readlines (String c s)
  = if bool_decide (c = PyStr.newline)
    then String c EmptyString :: PyStr.readlines s
    else match PyStr.readlines s with
         | [] => [String c EmptyString]
         | l :: ls => String c l :: ls
         end.
Proof. reflexivity. Qed.

Lemma readlines_app (text more : string) :
  PyStr.endswith text PyStr.newline = true ->
  PyStr.readlines (text +:+ more) = PyStr.readlines text ++ PyStr.readlines more.
Proof.
  induction text as [|c text IH]; [discriminate|].
  intros Hend. destruct text as [|d text'].
  - cbn [PyStr.endswith] in Hend.
    change (String c EmptyString +:+ more) with (String c more).
    rewrite !readlines_cons, Hend. reflexivity.
  - change (String c (String d text') +:+ more)
      with (String c (String d text' +:+ more)).
    rewrite (readlines_cons c (String d text' +:+ more)), IH by exact Hend.
    rewrite (readlines_cons c (String d text')).
    case_bool_decide; [reflexivity|].
    destruct (PyStr.readlines (String d text')) as [|l ls] eqn:E;
      [|reflexivity].
    exfalso. rewrite readlines_cons in E. case_bool_decide; [discriminate|].
    by destruct (PyStr.readlines text').
Qed.

Lemma readlines_nonempty (c : ascii) (text : string) :
  PyStr.readlines (String c text) <> [].
Proof.
  cbn [PyStr.readlines]. case_bool_decide; [discriminate|].
  by destruct (PyStr.readlines text).
Qed.

(** Text added after a manifest that ends with a line feed leaves the
    extension and the actions read so far as they were: the actions of the
    added lines come after them. *)
Theorem MatList_init_app (text more : string) :
  PyStr.endswith text PyStr.newline = true ->
  MatList_init (text +:+ more)
  = {| ext := ext (MatList_init text);
       flow := flow (MatList_init text)
               ++ fold_left init_line (PyStr.readlines more) [] |}.
Proof.
  intros Hend. unfold MatList_init. rewrite readlines_app by exact Hend.
  destruct text as [|c text]; [discriminate|].
  pose proof (readlines_nonempty c text) as Hne.
  destruct (PyStr.readlines (String c text)) as [|l ls]; [done|].
  cbn [hd tl app ext flow]. f_equal.
  rewrite fold_left_app, !init_flow_spec, !app_nil_l.
  reflexivity.
Qed.

Lemma MatList_init_app_witness :
  MatList_init (Scenario.lists_txt +:+ "c" +:+ Scenario.nl)
  = {| ext := ext (MatList_init Scenario.lists_txt);
       flow := flow (MatList_init Scenario.lists_txt)
               ++ fold_left init_line
                    (PyStr.readlines ("c" +:+ Scenario.nl)) [] |}.
Proof.
  apply (MatList_init_app Scenario.lists_txt ("c" +:+ Scenario.nl)).
  vm_compute. reflexivity.
Defined.

Lemma spec_action_name_ok (l : string) :
  PyStr.strip l <> EmptyString ->
  parsed_name_ok (action_of_spec (spec_action_of_line (PyStr.strip l))).
Proof.
  intros Hne. destruct (PyStr.strip l) as [|c r] eqn:E; [done|].
  cbn [spec_action_of_line]. unfold parsed_name_ok.
  repeat case_bool_decide; cbn [action_of_spec aname atype]; try reflexivity.
  - split; [apply PyStrFacts.strip_idem|]. discriminate.
  - split; [rewrite <- E; apply PyStrFacts.strip_idem|].
    intros _. exists c, r. repeat split; try assumption.
    by apply (PyStrFacts.strip_head l c r).
Qed.

(** Every name that the constructor stores is trimmed; the name of an
    entry is moreover not empty and begins with a character that is
    neither '-' nor '+' nor white space. The name of a scope may be empty.
    Only the [EXIT_SCOPE] actions have no name. *)
Theorem MatList_init_names (text : string) :
  Forall parsed_name_ok (flow (MatList_init text))
  /\ flow (MatList_init ("x" +:+ Scenario.nl +:+ "+"))
     = [Action ENTER_SCOPE (Some EmptyString)].
Proof.
  split; [|by vm_compute].
  unfold MatList_init. cbn [flow]. rewrite init_flow_spec, app_nil_l.
  induction (tl (PyStr.readlines text)) as [|l ls IH]; [constructor|].
  cbn [map]. rewrite filter_cons. destruct (decide _) as [Hne|]; [|exact IH].
  cbn [map]. constructor; [by apply spec_action_name_ok|exact IH].
Qed.

(** ** One entry *)

Section EntryFacts.

Context (self : MatList) (tmp_dir1 tmp_dir2 : string).

(** The body of the [try], in full: it writes no file, prints at most one
    line (exactly one when it ends without an exception), and hands to
    [load_mat] the first path, then the second one unless the first load
    failed. *)
Lemma compare_entry_frame (scopes : list string) (mat_name p1 p2 : string)
    (w : world) :
  exists r w' ls lp,
    compare_entry self tmp_dir1 scopes mat_name p1 p2 w = (r, w')
    /\ files w' = files w
    /\ stdout w' = stdout w ++ ls
    /\ (length ls <= 1)%nat
    /\ (r = Ok () -> length ls = 1%nat)
    /\ loaded w' = loaded w ++ lp
    /\ (lp = [p1] \/ lp = [p1; p2]).
Proof.
  assert (Hraise : forall e ps, ps = [p1] \/ ps = [p1; p2] ->
    exists r w' ls lp, (Raise e, loading w ps) = (r, w')
      /\ files w' = files w /\ stdout w' = stdout w ++ ls
      /\ (length ls <= 1)%nat /\ (r = Ok () -> length ls = 1%nat)
      /\ loaded w' = loaded w ++ lp /\ (lp = [p1] \/ lp = [p1; p2])).
  { intros e ps Hps. exists (Raise e), (loading w ps), [], ps.
    split; [reflexivity|]. cbn. rewrite app_nil_r.
    repeat split; auto; discriminate. }
  destruct (flat_array (files w !! p1)) as [m1|e1] eqn:H1.
  2:{ rewrite (compare_entry_first_fails self tmp_dir1 scopes mat_name p1 p2
                 e1 w H1). apply Hraise. by left. }
  destruct (flat_array (files w !! p2)) as [m2|e2] eqn:H2.
  2:{ rewrite (compare_entry_second_fails self tmp_dir1 scopes mat_name p1 p2
                 m1 e2 w H1 H2). apply Hraise. by right. }
  rewrite (compare_entry_arrays self tmp_dir1 scopes mat_name p1 p2 m1 m2 w
             H1 H2).
  destruct (np.subtract m2 m1) as [delta|e]; [|apply Hraise; by right].
  destruct (np.abs delta) as [|x diff] eqn:E; [apply Hraise; by right|].
  cbv beta iota zeta.
  match goal with
  | |- context [report _ _ ?s ?n ?df ?d ?a ?b ?c ?e ?f ?w0] =>
      destruct (report_prints self tmp_dir1 s n df d a b c e f w0)
        as (r & l & w' & -> & [Hf Ho] & Hl & _)
  end.
  exists r, w', [l], [p1; p2]. split; [reflexivity|].
  rewrite Hf, Ho, Hl. cbn.
  repeat split; auto.
Qed.

(** A [SAVE_MAT] action that has a name never raises, whatever the two
    directories hold: the step returns normally with the same scopes, no
    file is changed, and one or two lines are printed. *)
Theorem named_entry_never_raises (scopes : list string) (name : string)
    (w : world) :
  exists w' ls,
    step self tmp_dir1 tmp_dir2 scopes (Action SAVE_MAT (Some name)) w
    = (Ok scopes, w')
    /\ files w' = files w
    /\ stdout w' = stdout w ++ ls
    /\ (1 <= length ls <= 2)%nat.
Proof.
  rewrite step_save.
  destruct (decide (entry_path self tmp_dir1 scopes name ∈ dom (files w)))
    as [H1|H1];
    [destruct (decide (entry_path self tmp_dir2 scopes name ∈ dom (files w)))
       as [H2|H2]|].
  - rewrite save_mat_present by assumption.
    destruct (compare_entry_frame scopes name
                (entry_path self tmp_dir1 scopes name)
                (entry_path self tmp_dir2 scopes name) w)
      as ([[]|e] & w' & ls & lp & -> & Hf & Ho & Hle & Hok & _).
    + exists w', ls. repeat split; auto. rewrite Hok by reflexivity. lia.
    + eexists; exists (ls ++ [error_line self scopes name e]).
      split; [reflexivity|]. cbn. rewrite Ho, <- app_assoc, length_app. cbn.
      repeat split; auto; lia.
  - rewrite save_mat_missing by (by right).
    eexists; eexists. split; [reflexivity|]. cbn. repeat split; auto.
  - rewrite save_mat_missing by (by left).
    eexists; eexists. split; [reflexivity|]. cbn. repeat split; auto.
Qed.

(** When both files of an entry exist and one of them holds no matrix
    ([load_mat] returns [None], and [None.flatten()] raises an
    [AttributeError]), the step prints the one line
    [Error when comparing "<relative path>": "<exception>".] with that
    exception, changes no file, and returns normally with the same scopes.
    The second file is not loaded when the first one holds no matrix. A
    first file that OpenCV cannot parse gives the same line with the
    exception of OpenCV. *)
Theorem entry_without_matrix (scopes : list string) (name : string)
    (f1 f2 : file) (w : world) :
  let path1 := os.path_join tmp_dir1 (scopes ++ [name +:+ ext self]) in
  let path2 := os.path_join tmp_dir2 (scopes ++ [name +:+ ext self]) in
  let after := fun (e : exn) (lp : list string) =>
    World (files w) (dirs w)
      (stdout w
       ++ [Line None
             [Str ("Error when comparing " +:+ dq);
              Str (os.path_join_args (scopes ++ [name +:+ ext self]));
              Str (dq +:+ ": " +:+ dq); ExnText e; Str (dq +:+ ".")]])
      (loaded w ++ lp) in
  files w !! path1 = Some f1 -> files w !! path2 = Some f2 ->
  (holds_no_matrix f1 ->
   step self tmp_dir1 tmp_dir2 scopes (Action SAVE_MAT (Some name)) w
   = (Ok scopes, after AttributeError_None_flatten [path1]))
  /\ (f1 = BrokenFile ->
      step self tmp_dir1 tmp_dir2 scopes (Action SAVE_MAT (Some name)) w
      = (Ok scopes, after cv2_error_read [path1]))
  /\ (forall rows, f1 = MatFile rows -> np.flatten rows <> [] ->
      holds_no_matrix f2 ->
      step self tmp_dir1 tmp_dir2 scopes (Action SAVE_MAT (Some name)) w
      = (Ok scopes, after AttributeError_None_flatten [path1; path2])).
Proof.
  intros path1 path2 after H1 H2.
  assert (Hfail1 : forall e, flat_array (files w !! path1) = Raise e ->
    step self tmp_dir1 tmp_dir2 scopes (Action SAVE_MAT (Some name)) w
    = (Ok scopes, after e [path1])).
  { intros e He.
    rewrite step_save, save_mat_present by (eapply lookup_in_dom; eassumption).
    change (entry_path self tmp_dir1 scopes name) with path1.
    change (entry_path self tmp_dir2 scopes name) with path2.
    by rewrite (compare_entry_first_fails self tmp_dir1 scopes name path1 path2
                  e w He). }
  split; [|split].
  - intros Hno. apply Hfail1. rewrite H1. unfold flat_array.
    destruct f1 as [rows| |]; [|reflexivity|done].
    cbn in Hno. by rewrite Hno.
  - intros ->. apply Hfail1. by rewrite H1.
  - intros rows -> Hne Hno.
    rewrite step_save, save_mat_present by (eapply lookup_in_dom; eassumption).
    change (entry_path self tmp_dir1 scopes name) with path1.
    change (entry_path self tmp_dir2 scopes name) with path2.
    rewrite (compare_entry_second_fails self tmp_dir1 scopes name path1 path2
               (np.flatten rows) AttributeError_None_flatten w);
      [reflexivity|by apply flat_array_matrix|].
    rewrite H2. unfold flat_array.
    destruct f2 as [rows2| |]; [|reflexivity|done].
    cbn in Hno. by rewrite Hno.
Qed.

End EntryFacts.

Lemma entry_without_matrix_witness :
  let self := Scenario.one_entry in
  let w := Scenario.world_of (<["A/a.yml" := MatFile [[1%float]]]>
                             (<["B/a.yml" := OtherFile]> ∅)) in
  step self "A" "B" [] (Action SAVE_MAT (Some "a")) w
  = (Ok [],
     World (files w) (dirs w)
       (stdout w
        ++ [Line None
              [Str ("Error when comparing " +:+ dq); Str "a.yml";
               Str (dq +:+ ": " +:+ dq); ExnText AttributeError_None_flatten;
               Str (dq +:+ ".")]])
       (loaded w ++ ["A/a.yml"; "B/a.yml"])).
Proof.
  intros self w.
  apply (proj2 (proj2 (entry_without_matrix self "A" "B" [] "a"
                         (MatFile [[1%float]]) OtherFile w
                         ltac:(by vm_compute) ltac:(by vm_compute)))
           [[1%float]]).
  - reflexivity.
  - discriminate.
  - exact I.
Defined.

(** ** The loop, further *)

Section LoopFacts.

Context (self : MatList) (tmp_dir1 tmp_dir2 : string).

(** An action that [compare] cannot handle, met after a prefix that was
    replayed to the end, ends [compare] with an exception that nothing
    catches, in the world that the prefix left: a type that is none of the
    three constants raises the exception of line 145, and an [ENTER_SCOPE]
    or [SAVE_MAT] action without the key ['name'] raises a [KeyError] (line
    84 is outside the [try]). *)
Theorem malformed_action_raises (pre : list action) (x : action)
    (post : list action) (scopes : list string) (w w1 : world) :
  flow self = pre ++ x :: post ->
  replay self tmp_dir1 tmp_dir2 pre [] w = (Ok scopes, w1) ->
  (atype x <> ENTER_SCOPE -> atype x <> EXIT_SCOPE -> atype x <> SAVE_MAT ->
   compare self tmp_dir1 tmp_dir2 w = (Raise Exception_unknown_action_type, w1))
  /\ (atype x = ENTER_SCOPE \/ atype x = SAVE_MAT -> aname x = None ->
      compare self tmp_dir1 tmp_dir2 w = (Raise KeyError_name, w1)).
Proof.
  intros Hflow Hpre.
  rewrite compare_unfold, Hflow, replay_app, Hpre, replay_cons.
  split.
  - intros H0 H1 H2.
    destruct (step_outcome_intro self tmp_dir1 tmp_dir2 scopes x w1)
      as [n Ht Hn|Ht Hs|Ht Hs|n w2 ls Ht Hn _ _|Ht Hn|_ _ _];
      try congruence; try reflexivity. destruct Ht; congruence.
  - intros Ht Hn.
    destruct (step_outcome_intro self tmp_dir1 tmp_dir2 scopes x w1)
      as [n Ht' Hn'|Ht' Hs|Ht' Hs|n w2 ls Ht' Hn' _ _|Ht' Hn'|H0 H1 H2];
      try congruence; try reflexivity;
      exfalso; destruct Ht as [Ht|Ht]; rewrite Ht in *; try done;
      count_cases.
Qed.

(** With [depth] scopes open above a base, well-formed actions that never
    leave more scopes than that are replayed to the end without touching
    the base of the stack. *)
Lemma replay_keeps_base (actions : list action) (base top : list string)
    (w : world) :
  Forall well_formed actions ->
  balanced_from (length top) actions ->
  exists top' w',
    replay self tmp_dir1 tmp_dir2 actions (base ++ top) w
    = (Ok (base ++ top'), w')
    /\ (length top' + count_type EXIT_SCOPE actions
        = length top + count_type ENTER_SCOPE actions)%nat.
Proof.
  intros Hwf. revert top w.
  induction Hwf as [|a rest Ha _ IH]; intros top w Hb.
  - exists top, w. split; [reflexivity|]. cbn. lia.
  - rewrite replay_cons.
    assert (Hrest : forall k : nat,
      (k + count_type EXIT_SCOPE [a]
       = length top + count_type ENTER_SCOPE [a])%nat ->
      balanced_from k rest).
    { intros k Hk n. specialize (Hb (S n)). count_cases. }
    pose proof (Hb 1%nat) as H1. cbn [take] in H1. rewrite take_0 in H1.
    destruct (step_outcome_intro self tmp_dir1 tmp_dir2 (base ++ top) a w)
      as [n Ht Hn|Ht Hs|Ht Hs|n w1 ls Ht Hn _ _|Ht Hn|H0 H2 H3].
    + rewrite <- app_assoc.
      destruct (IH (top ++ [n]) (printed w (scope_line (base ++ top) n)))
        as (t' & w' & -> & Hl).
      { apply Hrest. rewrite length_app. count_cases. }
      exists t', w'. split; [reflexivity|].
      rewrite length_app in Hl. count_cases.
    + assert (top <> []) as Htop by (intros ->; count_cases).
      rewrite removelast_app by exact Htop.
      destruct (IH (removelast top) w) as (t' & w' & -> & Hl).
      { apply Hrest. rewrite length_removelast_pred.
        destruct top; [done|]. count_cases. }
      exists t', w'. split; [reflexivity|].
      rewrite length_removelast_pred in Hl. destruct top; [done|]. count_cases.
    + exfalso. destruct top; [count_cases|by destruct base].
    + destruct (IH top w1) as (t' & w' & -> & Hl).
      { apply Hrest. count_cases. }
      exists t', w'. split; [reflexivity|]. count_cases.
    + exfalso. destruct Ha as [Ha|[_ [y Hy]]]; [|congruence]. count_cases.
    + exfalso. destruct Ha as [Ha|[[Ha|Ha] _]]; congruence.
Qed.

(** Scopes nest: well-formed, balanced actions that leave as many scopes
    as they enter give back the scope stack they started from, so the
    entries after them are looked up in the same directory as the entries
    before them. *)
Theorem closed_block_restores_scopes (block : list action)
    (scopes : list string) (w : world) :
  Forall well_formed block -> balanced block ->
  count_type EXIT_SCOPE block = count_type ENTER_SCOPE block ->
  exists w',
    replay self tmp_dir1 tmp_dir2 block scopes w = (Ok scopes, w').
Proof.
  intros Hwf Hb Hcount.
  destruct (replay_keeps_base block scopes [] w Hwf Hb)
    as (top' & w' & Hrun & Hlen).
  rewrite app_nil_r in Hrun.
  assert (top' = []) as -> by (destruct top'; [done|cbn [length] in Hlen; lia]).
  rewrite app_nil_r in Hrun. by exists w'.
Qed.

(** The tree is indented by the depth: after well-formed, balanced actions,
    the line printed for a scope that is entered begins with four spaces
    for each scope that is open, that is for each [ENTER_SCOPE] action not
    yet matched by an [EXIT_SCOPE] action. *)
Theorem scope_line_indentation (pre : list action) (name : string) (w : world) :
  Forall well_formed pre -> balanced pre ->
  let depth := (count_type ENTER_SCOPE pre - count_type EXIT_SCOPE pre)%nat in
  exists scopes w1,
    replay self tmp_dir1 tmp_dir2 pre [] w = (Ok scopes, w1)
    /\ length scopes = depth
    /\ replay self tmp_dir1 tmp_dir2
         (pre ++ [Action ENTER_SCOPE (Some name)]) [] w
       = (Ok (scopes ++ [name]),
          printed w1
            (Line (Some white)
               [Str (PyStr.repeat "    " depth +:+ name +:+ "/")])).
Proof.
  intros Hwf Hb depth.
  destruct (replay_balanced self tmp_dir1 tmp_dir2 pre [] w Hwf Hb)
    as (s & w1 & Hpre & Hlen).
  assert (Hdepth : length s = depth) by (cbn [length] in Hlen; lia).
  exists s, w1. split; [exact Hpre|]. split; [exact Hdepth|].
  rewrite replay_app, Hpre, replay_cons.
  destruct (step_outcome_intro self tmp_dir1 tmp_dir2 s
              (Action ENTER_SCOPE (Some name)) w1)
    as [n Ht Hn|Ht Hs|Ht Hs|n w2 ls Ht Hn _ _|Ht Hn|H0 H1 H2];
    try discriminate; try (exfalso; by apply H0).
  cbn [aname] in Hn. injection Hn as <-.
  unfold scope_line. rewrite Hdepth. reflexivity.
Qed.

End LoopFacts.

Lemma malformed_action_raises_witness :
  let w := Scenario.world_of ∅ in
  let w1 := printed w (scope_line [] "g") in
  compare {| ext := ".yml";
             flow := [Action ENTER_SCOPE (Some "g"); Action 7 None] |}
          "A" "B" w
  = (Raise Exception_unknown_action_type, w1)
  /\ compare {| ext := ".yml";
                flow := [Action ENTER_SCOPE (Some "g"); Action SAVE_MAT None] |}
             "A" "B" w
     = (Raise KeyError_name, w1).
Proof.
  intros w w1. split.
  - apply (proj1 (malformed_action_raises
                    {| ext := ".yml";
                       flow := [Action ENTER_SCOPE (Some "g"); Action 7 None] |}
                    "A" "B" [Action ENTER_SCOPE (Some "g")] (Action 7 None) []
                    ["g"] w w1 eq_refl eq_refl)); discriminate.
  - apply (proj2 (malformed_action_raises
                    {| ext := ".yml";
                       flow := [Action ENTER_SCOPE (Some "g");
                                Action SAVE_MAT None] |}
                    "A" "B" [Action ENTER_SCOPE (Some "g")]
                    (Action SAVE_MAT None) [] ["g"] w w1 eq_refl eq_refl)).
    + by right.
    + reflexivity.
Defined.

Lemma closed_block_restores_scopes_witness :
  exists w',
    replay Scenario.one_scope "A" "B"
      [Action ENTER_SCOPE (Some "g"); Action SAVE_MAT (Some "b");
       Action EXIT_SCOPE None] ["top"] Scenario.identical
    = (Ok ["top"], w').
Proof.
  apply (closed_block_restores_scopes Scenario.one_scope "A" "B").
  - constructor; [right; split; [by left|by eexists]|].
    constructor; [right; split; [by right|by eexists]|].
    constructor; [by left|]. constructor.
  - intros [|[|[|[|n]]]]; vm_compute; lia.
  - reflexivity.
Defined.

Lemma scope_line_indentation_witness :
  let pre := [Action ENTER_SCOPE (Some "g"); Action ENTER_SCOPE (Some "h");
              Action EXIT_SCOPE None] in
  let w := Scenario.world_of ∅ in
  exists scopes w1,
    replay Scenario.one_scope "A" "B" pre [] w = (Ok scopes, w1)
    /\ length scopes = 1%nat
    /\ replay Scenario.one_scope "A" "B"
         (pre ++ [Action ENTER_SCOPE (Some "k")]) [] w
       = (Ok (scopes ++ ["k"]),
          printed w1 (Line (Some white) [Str "    k/"])).
Proof.
  intros pre w.
  apply (scope_line_indentation Scenario.one_scope "A" "B" pre "k" w).
  - constructor; [right; split; [by left|by eexists]|].
    constructor; [right; split; [by left|by eexists]|].
    constructor; [by left|]. constructor.
  - intros [|[|[|[|n]]]]; vm_compute; lia.
Defined.

(** ** What is loaded *)

Section LoadFacts.

Context (self : MatList) (tmp_dir1 tmp_dir2 : string).

Lemma save_mat_loads_files (scopes : list string) (n : string) (w : world) :
  exists w' lp,
    save_mat self tmp_dir1 tmp_dir2 scopes n w = (Ok (), w')
    /\ files w' = files w
    /\ loaded w' = loaded w ++ lp
    /\ Forall (fun p => p ∈ dom (files w)) lp.
Proof.
  destruct (decide (entry_path self tmp_dir1 scopes n ∈ dom (files w)))
    as [H1|H1];
    [destruct (decide (entry_path self tmp_dir2 scopes n ∈ dom (files w)))
       as [H2|H2]|].
  - rewrite save_mat_present by assumption.
    destruct (compare_entry_frame self tmp_dir1 scopes n
                (entry_path self tmp_dir1 scopes n)
                (entry_path self tmp_dir2 scopes n) w)
      as ([[]|e] & w' & ls & lp & -> & Hf & _ & _ & _ & Hl & Hlp);
      eexists; exists lp; (split; [reflexivity|]); cbn;
      (repeat split; [exact Hf|exact Hl|]);
      destruct Hlp as [->| ->]; repeat constructor; assumption.
  - rewrite save_mat_missing by (by right).
    eexists; exists []. cbn. rewrite app_nil_r. by repeat split.
  - rewrite save_mat_missing by (by left).
    eexists; exists []. cbn. rewrite app_nil_r. by repeat split.
Qed.

Lemma step_loads_files (scopes : list string) (a : action) (w : world) :
  exists lp,
    loaded (snd (step self tmp_dir1 tmp_dir2 scopes a w)) = loaded w ++ lp
    /\ Forall (fun p => p ∈ dom (files w)) lp.
Proof.
  unfold step. repeat case_bool_decide.
  - unfold action_name. destruct (aname a) as [n|];
      rewrite bind_unfold; exists []; cbn; rewrite app_nil_r; by split.
  - unfold scopes_pop. destruct scopes;
      exists []; cbn; rewrite app_nil_r; by split.
  - unfold action_name. destruct (aname a) as [n|]; rewrite bind_unfold.
    + cbn [mret io_ret]. rewrite bind_unfold.
      destruct (save_mat_loads_files scopes n w)
        as (w' & lp & -> & _ & Hl & Hlp).
      exists lp. by split.
    + exists []. cbn. rewrite app_nil_r. by split.
  - exists []. cbn. rewrite app_nil_r. by split.
Qed.

Lemma replay_loads_files (actions : list action) (scopes : list string)
    (w : world) :
  exists lp,
    loaded (snd (replay self tmp_dir1 tmp_dir2 actions scopes w))
    = loaded w ++ lp
    /\ Forall (fun p => p ∈ dom (files w)) lp.
Proof.
  revert scopes w. induction actions as [|a rest IH]; intros scopes w.
  - exists []. cbn. rewrite app_nil_r. by split.
  - rewrite replay_cons.
    destruct (step_loads_files scopes a w) as (lp & Hl & Hlp).
    pose proof (step_files self tmp_dir1 tmp_dir2 scopes a w) as Hf.
    destruct (step self tmp_dir1 tmp_dir2 scopes a w) as [[s'|e] w'];
      cbn [snd] in *; [|by exists lp].
    destruct (IH s' w') as (lp' & Hl' & Hlp').
    exists (lp ++ lp'). rewrite Hl', Hl, app_assoc. split; [reflexivity|].
    apply Forall_app. split; [exact Hlp|]. by rewrite <- Hf.
Qed.

(** [load_mat] is only ever called on a path that [os.path.isfile]
    accepted: every path handed to it during a run is a regular file of the
    world the run started in, whether the run completes or raises. *)
Theorem compare_loads_only_files (w : world) :
  exists lp,
    loaded (snd (compare self tmp_dir1 tmp_dir2 w)) = loaded w ++ lp
    /\ Forall (fun p => p ∈ dom (files w)) lp.
Proof.
  rewrite compare_unfold.
  destruct (replay_loads_files (flow self) [] w) as (lp & Hl & Hlp).
  exists lp. split; [|exact Hlp].
  by destruct (replay self tmp_dir1 tmp_dir2 (flow self) [] w) as [[s|e] w'].
Qed.

(** An entry whose two matrices load and subtract, when no regular file is
    in the way of the directory [join(tmp_dir1, "diff", scopes...)]. With
    [d] the distance that its line shows: below 0.001 the step prints the
    green line and nothing else happens; otherwise it prints the yellow or
    red line with the statistics, makes that directory and the intermediate
    ones, then prints
    [Error when comparing "<relative path>": "<exception>".] for the file
    name that [cv2.FileStorage] refuses. The difference is not written in
    either case, and the step returns normally. *)
Theorem differing_entry_makes_directory_only (scopes : list string)
    (name : string) (rows1 rows2 : list (list float)) (delta : list float)
    (w : world) :
  let path1 := os.path_join tmp_dir1 (scopes ++ [name +:+ ext self]) in
  let path2 := os.path_join tmp_dir2 (scopes ++ [name +:+ ext self]) in
  let diff := np.abs delta in
  let diff_dir := os.path_join tmp_dir1 ("diff" :: scopes) in
  files w !! path1 = Some (MatFile rows1) -> np.flatten rows1 <> [] ->
  files w !! path2 = Some (MatFile rows2) -> np.flatten rows2 <> [] ->
  np.subtract (np.flatten rows2) (np.flatten rows1) = Ok delta ->
  diff_dir ∉ dom (files w) ->
  filter (fun p => p ∈ dom (files w)) (os.ancestors diff_dir) = [] ->
  exists d : float,
    let text := [Str (PyStr.repeat "    " (length scopes) +:+ name +:+ ": d=");
                 Num d] in
    step self tmp_dir1 tmp_dir2 scopes (Action SAVE_MAT (Some name)) w
    = (Ok scopes,
       if PrimFloat.ltb d 0.001 then
         World (files w) (dirs w) (stdout w ++ [Line (Some green) text])
           (loaded w ++ [path1; path2])
       else
         World (files w)
           ({[ diff_dir ]} ∪ list_to_set (os.ancestors diff_dir) ∪ dirs w)
           (stdout w
            ++ [Line (Some (if PrimFloat.ltb d 10 then yellow else red))
                  (text
                   ++ [Str ", min="; StatOf np_min diff;
                       Str ", max="; StatOf np_max diff;
                       Str ", avg="; StatOf np_average diff;
                       Str ", median="; StatOf np_median diff;
                       Str ", std="; StatOf np_std diff]);
                Line None
                  [Str ("Error when comparing " +:+ dq);
                   Str (os.path_join_args (scopes ++ [name +:+ ext self]));
                   Str (dq +:+ ": " +:+ dq); ExnText cv2_error_filename;
                   Str (dq +:+ ".")]])
           (loaded w ++ [path1; path2])).
Proof.
  intros path1 path2 diff diff_dir H1 N1 H2 N2 Hsub Hdir Hanc.
  exists (np.linalg_norm1 diff).
  cbv zeta.
  rewrite step_save, save_mat_present by (eapply lookup_in_dom; eassumption).
  change (entry_path self tmp_dir1 scopes name) with path1.
  change (entry_path self tmp_dir2 scopes name) with path2.
  rewrite (compare_entry_loaded self tmp_dir1 scopes name path1 path2
             rows1 rows2 w H1 N1 H2 N2), Hsub.
  pose proof (FloatFacts.subtract_nonempty _ _ _ N2 N1 Hsub) as Hne.
  subst diff. destruct (np.abs delta) as [|x diff] eqn:E.
  { destruct delta; [done|discriminate]. }
  cbv beta iota zeta. unfold report.
  destruct (PrimFloat.ltb (np.linalg_norm1 (x :: diff)) 0.001); [reflexivity|].
  rewrite bind_unfold.
  destruct (PrimFloat.ltb (np.linalg_norm1 (x :: diff)) 10);
    cbn [print]; unfold save_diff; rewrite bind_unfold;
    unfold os.makedirs; cbn [files printed loading];
    fold diff_dir;
    rewrite (bool_decide_eq_false_2 _ Hdir), Hanc;
    rewrite bind_unfold; unfold cv2.FileStorage_write, raise, print, printed;
    cbn [files dirs stdout loaded]; rewrite <- app_assoc; reflexivity.
Qed.

End LoadFacts.

Lemma differing_entry_makes_directory_only_witness :
  let self := Scenario.one_entry in
  let w := Scenario.pair_a [[1; 2]%float] [[1; 2.5]%float] in
  let diff := np.abs [PrimFloat.sub 1 1; PrimFloat.sub 2.5 2] in
  exists d : float,
    let text := [Str (PyStr.repeat "    " 0 +:+ "a" +:+ ": d="); Num d] in
    step self "A" "B" [] (Action SAVE_MAT (Some "a")) w
    = (Ok [],
       if PrimFloat.ltb d 0.001 then
         World (files w) (dirs w) (stdout w ++ [Line (Some green) text])
           (loaded w ++ ["A/a.yml"; "B/a.yml"])
       else
         World (files w) ({[ "A/diff" ]} ∪ list_to_set ["A"] ∪ dirs w)
           (stdout w
            ++ [Line (Some (if PrimFloat.ltb d 10 then yellow else red))
                  (text
                   ++ [Str ", min="; StatOf np_min diff;
                       Str ", max="; StatOf np_max diff;
                       Str ", avg="; StatOf np_average diff;
                       Str ", median="; StatOf np_median diff;
                       Str ", std="; StatOf np_std diff]);
                Line None
                  [Str ("Error when comparing " +:+ dq); Str "a.yml";
                   Str (dq +:+ ": " +:+ dq); ExnText cv2_error_filename;
                   Str (dq +:+ ".")]])
           (loaded w ++ ["A/a.yml"; "B/a.yml"])).
Proof.
  intros self w diff.
  apply (differing_entry_makes_directory_only self "A" "B" [] "a"
           [[1; 2]%float] [[1; 2.5]%float]
           [PrimFloat.sub 1 1; PrimFloat.sub 2.5 2] w).
  - by vm_compute.
  - discriminate.
  - by vm_compute.
  - discriminate.
  - reflexivity.
  - intros H. apply elem_of_dom in H. destruct H as [f Hf].
    vm_compute in Hf. discriminate Hf.
  - by vm_compute.
Defined.

(** ** Paths *)

Module PathFacts.
Import PyStr.

Lemma append_String (x : ascii) (a b : string) :
  String x a +:+ b = String x (a +:+ b).
Proof. reflexivity. Qed.

Lemma append_nil_r (s : string) : s +:+ EmptyString = s.
Proof.
  induction s as [|c s IH]; [reflexivity|]. by rewrite append_String, IH.
Qed.

Lemma append_assoc (a b c : string) : (a +:+ b) +:+ c = a +:+ (b +:+ c).
Proof.
  induction a as [|x a IH]; [reflexivity|]. by rewrite !append_String, IH.
Qed.

Lemma endswith_cons (x : ascii) (s : string) (ch : ascii) :
  s <> EmptyString -> endswith (String x s) ch = endswith s ch.
Proof. destruct s; [done|reflexivity]. Qed.

Lemma endswith_app (a b : string) (ch : ascii) :
  b <> EmptyString -> endswith (a +:+ b) ch = endswith b ch.
Proof.
  intros Hb. induction a as [|x a IH]; [reflexivity|].
  change (String x a +:+ b) with (String x (a +:+ b)).
  rewrite endswith_cons; [exact IH|].
  destruct a; [exact Hb|discriminate].
Qed.

Lemma startswith_app (b c : string) (ch : ascii) :
  b <> EmptyString -> startswith (b +:+ c) ch = startswith b ch.
Proof. destruct b; [done|reflexivity]. Qed.

Lemma app_not_empty (a b : string) : b <> EmptyString -> a +:+ b <> EmptyString.
Proof. destruct a; [done|discriminate]. Qed.

Lemma join_abs (a b : string) :
  startswith b os.sep = true -> os.join_step a b = b.
Proof. intros H. unfold os.join_step. by rewrite H. Qed.

Lemma join_rel_dir (a b : string) :
  startswith b os.sep = false ->
  bool_decide (a = EmptyString) || endswith a os.sep = true ->
  os.join_step a b = a +:+ b.
Proof. intros H1 H2. unfold os.join_step. by rewrite H1, H2. Qed.

Lemma join_rel (a b : string) :
  startswith b os.sep = false ->
  bool_decide (a = EmptyString) || endswith a os.sep = false ->
  os.join_step a b = a +:+ String os.sep b.
Proof. intros H1 H2. unfold os.join_step. by rewrite H1, H2. Qed.

Lemma dirlike_app (a b : string) :
  b <> EmptyString ->
  bool_decide (a +:+ b = EmptyString) || endswith (a +:+ b) os.sep
  = bool_decide (b = EmptyString) || endswith b os.sep.
Proof.
  intros Hb. rewrite endswith_app by exact Hb.
  rewrite !bool_decide_eq_false_2; [reflexivity|exact Hb|].
  by apply app_not_empty.
Qed.

(** [posixpath.join] is associative: joining in two calls is joining in
    one. *)
Lemma join_step_assoc (a b c : string) :
  os.join_step (os.join_step a b) c = os.join_step a (os.join_step b c).
Proof.
  destruct (startswith c os.sep) eqn:Hc.
  { by rewrite (join_abs _ c Hc), (join_abs b c Hc), (join_abs a c Hc). }
  destruct (bool_decide (a = EmptyString) || endswith a os.sep) eqn:Ha.
  - destruct b as [|d r].
    + rewrite (join_rel_dir a EmptyString) by done.
      rewrite (join_rel_dir EmptyString c) by done.
      by rewrite append_nil_r.
    + assert (Hb : String d r <> EmptyString) by discriminate.
      destruct (startswith (String d r) os.sep) eqn:Hbs.
      * rewrite (join_abs a _ Hbs). symmetry. apply join_abs.
        destruct (bool_decide (String d r = EmptyString)
                  || endswith (String d r) os.sep) eqn:Hd.
        -- rewrite (join_rel_dir _ c Hc Hd). by rewrite startswith_app.
        -- rewrite (join_rel _ c Hc Hd). by rewrite startswith_app.
      * rewrite (join_rel_dir a _ Hbs Ha).
        destruct (bool_decide (String d r = EmptyString)
                  || endswith (String d r) os.sep) eqn:Hd.
        -- rewrite (join_rel_dir (String d r) c Hc Hd).
           rewrite (join_rel_dir (a +:+ String d r) c Hc)
             by (by rewrite dirlike_app).
           rewrite (join_rel_dir a (String d r +:+ c))
             by (by rewrite ?startswith_app).
           apply append_assoc.
        -- rewrite (join_rel (String d r) c Hc Hd).
           rewrite (join_rel (a +:+ String d r) c Hc)
             by (by rewrite dirlike_app).
           rewrite (join_rel_dir a (String d r +:+ String os.sep c))
             by (by rewrite ?startswith_app).
           apply append_assoc.
  - destruct b as [|d r].
    + rewrite (join_rel a EmptyString) by done.
      rewrite (join_rel_dir EmptyString c) by done.
      change (EmptyString +:+ c) with c.
      rewrite (join_rel a c Hc Ha).
      rewrite (join_rel_dir (a +:+ String os.sep EmptyString) c Hc)
        by (by rewrite dirlike_app).
      symmetry. apply append_cons.
    + assert (Hb : String d r <> EmptyString) by discriminate.
      destruct (startswith (String d r) os.sep) eqn:Hbs.
      * rewrite (join_abs a _ Hbs). symmetry. apply join_abs.
        destruct (bool_decide (String d r = EmptyString)
                  || endswith (String d r) os.sep) eqn:Hd.
        -- rewrite (join_rel_dir _ c Hc Hd). by rewrite startswith_app.
        -- rewrite (join_rel _ c Hc Hd). by rewrite startswith_app.
      * rewrite (join_rel a _ Hbs Ha).
        rewrite (append_cons a os.sep (String d r)).
        destruct (bool_decide (String d r = EmptyString)
                  || endswith (String d r) os.sep) eqn:Hd.
        -- rewrite (join_rel_dir (String d r) c Hc Hd).
           rewrite (join_rel_dir _ c Hc) by (by rewrite dirlike_app).
           rewrite (join_rel a (String d r +:+ c))
             by (by rewrite ?startswith_app).
           by rewrite append_assoc, <- append_cons.
        -- rewrite (join_rel (String d r) c Hc Hd).
           rewrite (join_rel _ c Hc) by (by rewrite dirlike_app).
           rewrite (join_rel a (String d r +:+ String os.sep c))
             by (by rewrite ?startswith_app).
           by rewrite append_assoc, <- append_cons.
Qed.

Lemma path_join_cons (a b : string) (p : list string) :
  os.path_join a (b :: p) = os.join_step a (os.path_join b p).
Proof.
  unfold os.path_join. cbn [fold_left]. revert b.
  induction p as [|x p IH]; intros b; [reflexivity|].
  cbn [fold_left]. rewrite join_step_assoc. apply IH.
Qed.

End PathFacts.

(** The relative path that the error line names is the path of the entry
    under each root: joined to a root, it is the path that [compare] tests
    and loads there. The same relative path, joined to the directory
    [diff] of the first root, is the file name that line 132 builds. *)
Theorem relative_path_under_root (self : MatList) (tmp_dir : string)
    (scopes : list string) (name : string) :
  entry_path self tmp_dir scopes name
  = os.path_join tmp_dir [entry_relpath self scopes name]
  /\ os.path_join (os.path_join tmp_dir ("diff" :: scopes)) [name +:+ ext self]
     = os.path_join tmp_dir ["diff"; entry_relpath self scopes name].
Proof.
  assert (H : forall root,
    os.path_join root (scopes ++ [name +:+ ext self])
    = os.join_step root (entry_relpath self scopes name)).
  { intros root. unfold entry_relpath, os.path_join_args.
    destruct scopes as [|s ss]; [reflexivity|].
    rewrite <- app_comm_cons. apply PathFacts.path_join_cons. }
  split.
  - unfold entry_path. rewrite H. reflexivity.
  - change (os.path_join tmp_dir ["diff"; entry_relpath self scopes name])
      with (os.join_step (os.join_step tmp_dir "diff")
              (entry_relpath self scopes name)).
    rewrite <- H.
    unfold os.path_join. cbn [fold_left]. rewrite fold_left_app. reflexivity.
Qed.

Lemma absolute_name_is_joined_to_nothing (self : MatList) (tmp_dir : string)
    (scopes : list string) (name : string) :
  PyStr.startswith name os.sep = true ->
  entry_path self tmp_dir scopes name = name +:+ ext self.
Proof.
  intros H. unfold entry_path, os.path_join. rewrite fold_left_app.
  cbn [fold_left]. apply PathFacts.join_abs.
  rewrite PathFacts.startswith_app; [exact H|]. by destruct name.
Qed.

(** An entry whose name begins with '/' is looked up outside both roots:
    its two paths are the name followed by the extension, whatever the
    roots and the open scopes, so the file is compared with itself. *)
Theorem absolute_name_escapes_roots (self : MatList)
    (tmp_dir1 tmp_dir2 : string) (scopes : list string) (name : string) :
  PyStr.startswith name os.sep = true ->
  entry_path self tmp_dir1 scopes name = name +:+ ext self
  /\ entry_path self tmp_dir2 scopes name = name +:+ ext self.
Proof.
  intros H. split; by apply absolute_name_is_joined_to_nothing.
Qed.

Lemma absolute_name_escapes_roots_witness :
  entry_path Scenario.one_entry "A" ["g"] "/tmp/m" = "/tmp/m" +:+ ".yml"
  /\ entry_path Scenario.one_entry "B" ["g"] "/tmp/m" = "/tmp/m" +:+ ".yml".
Proof.
  apply (absolute_name_escapes_roots Scenario.one_entry "A" "B" ["g"] "/tmp/m").
  reflexivity.
Defined.

(** ** The script *)

Lemma replay_stdout_grows (self : MatList) (tmp_dir1 tmp_dir2 : string)
    (actions : list action) (scopes : list string) (w : world) :
  exists ls,
    stdout (snd (replay self tmp_dir1 tmp_dir2 actions scopes w))
    = stdout w ++ ls.
Proof.
  revert scopes w. induction actions as [|a rest IH]; intros scopes w.
  - exists []. cbn. by rewrite app_nil_r.
  - rewrite replay_cons.
    destruct (step_outcome_intro self tmp_dir1 tmp_dir2 scopes a w)
      as [n Ht Hn|Ht Hs|Ht Hs|n w1 ls Ht Hn [_ Ho] _|Ht Hn|H0 H1 H2];
      try (exists []; cbn; by rewrite app_nil_r).
    + destruct (IH (scopes ++ [n]) (printed w (scope_line scopes n)))
        as [ls Hls].
      eexists. rewrite Hls. cbn. by rewrite <- app_assoc.
    + apply IH.
    + destruct (IH scopes w1) as [ls' Hls].
      eexists. rewrite Hls, Ho. by rewrite <- app_assoc.
Qed.

(** The script reads the manifest [lists.txt] of the first directory only.
    When it cannot be opened the replay does not start. Otherwise, whatever
    the text of the manifest and the contents of the two directories, the
    run either completes or ends with the [IndexError] of a scope left
    without being entered; in both cases no regular file is changed and
    what was printed before is kept. *)
Theorem main_outcomes (read_text : string -> option string)
    (tmp_dir1 tmp_dir2 : string) (w : world) :
  (read_text (os.path_join tmp_dir1 ["lists.txt"]) = None ->
   main read_text tmp_dir1 tmp_dir2 w = None)
  /\ (forall text,
        read_text (os.path_join tmp_dir1 ["lists.txt"]) = Some text ->
        exists r w' ls,
          main read_text tmp_dir1 tmp_dir2 w = Some (r, w')
          /\ (r = Ok () \/ r = Raise IndexError_pop_from_empty_list)
          /\ files w' = files w
          /\ stdout w' = stdout w ++ ls).
Proof.
  unfold main. split; [by intros ->|].
  intros text ->.
  pose proof (compare_writes_no_file (MatList_init text) tmp_dir1 tmp_dir2 w)
    as Hf.
  destruct (replay_stdout_grows (MatList_init text) tmp_dir1 tmp_dir2
              (flow (MatList_init text)) [] w) as [ls Hls].
  destruct (replay_well_formed (MatList_init text) tmp_dir1 tmp_dir2
              (flow (MatList_init text)) [] w
              (MatList_init_well_formed text)) as [[s H]|H];
    rewrite compare_unfold in *;
    destruct (replay (MatList_init text) tmp_dir1 tmp_dir2
                (flow (MatList_init text)) [] w) as [[s'|e] w'];
    cbn [fst snd] in *; try discriminate;
    eexists; exists w', ls; (split; [reflexivity|]);
    repeat split; auto.
  right. congruence.
Qed.

Lemma main_outcomes_witness :
  let read_text := fun p : string =>
    if bool_decide (p = "A/lists.txt") then Some Scenario.lists_txt else None in
  main read_text "B" "A" Scenario.identical = None
  /\ exists r w' ls,
       main read_text "A" "B" Scenario.identical = Some (r, w')
       /\ (r = Ok () \/ r = Raise IndexError_pop_from_empty_list)
       /\ files w' = files Scenario.identical
       /\ stdout w' = stdout Scenario.identical ++ ls.
Proof.
  intros read_text. split.
  - apply (proj1 (main_outcomes read_text "B" "A" Scenario.identical)).
    reflexivity.
  - apply (proj2 (main_outcomes read_text "A" "B" Scenario.identical)
             Scenario.lists_txt).
    reflexivity.
Defined.

(** ** No file is written *)

(** Whatever the flow and the two directories, and whether the run
    completes or raises, [compare] leaves every regular file as it was and
    creates none: the only write of the code, on line 135, is never
    reached. *)
Theorem compare_never_writes (self : MatList) (tmp_dir1 tmp_dir2 : string)
    (w : world) :
  files (snd (compare self tmp_dir1 tmp_dir2 w)) = files w
  /\ forall p : string,
       p ∈ dom (files (snd (compare self tmp_dir1 tmp_dir2 w)))
       <-> p ∈ dom (files w).
Proof.
  assert (H : files (snd (compare self tmp_dir1 tmp_dir2 w)) = files w).
  { rewrite compare_unfold.
    pose proof (replay_files self tmp_dir1 tmp_dir2 (flow self) [] w) as H.
    by destruct (replay self tmp_dir1 tmp_dir2 (flow self) [] w)
      as [[s|e] w']. }
  split; [exact H|]. intros p. by rewrite H.
Qed.
